(** * AWG simulator: stage navigation, frame callbacks and particle fields

    A shallow embedding of [src/AwgSimulator.jsx] (the variant whose model
    component is [AwgModel]), of the component [Tanks] of the variant built
    from separate components, of the one place where the GLB variant
    ([AwgGLB]) is needed for comparison, and of the script of the HTML page.

    Conventions of the embedding.
    - A JavaScript number that holds a stage index is a [Z].
    - The frame callback of [AwgModel] and the water levels are embedded on
      real numbers ([R]): [Math.pow b x] with [0 < b] is [Rpower b x],
      [Math.max]/[Math.min] are [Rmax]/[Rmin].  The levels of the HTML page
      are rationals ([Q]).
    - The component [Particles] is embedded twice.  The modules [Js],
      [Field] and [Scene] have it as the engine runs it: numbers are IEEE
      doubles (Rocq's primitive floats), a store into a [Float32Array] keeps
      [Math.fround] of the value, [Math.sin], [Math.cos] and [Math.random]
      are supplied from outside, and a render rebuilds the memoised arrays
      whose dependencies changed.  The module [Particles] is its reading on
      exact reals, with cells that keep what is written to them; it agrees
      with the code on the paths that store neither [halfX] nor [-halfX]
      (nor the other half extents), and is used for those paths only.
    - A typed array is a list read with [!!] and written with [<[i:=v]>];
      a write outside the array does nothing, as for a [Float32Array].
    - A React ref is an [option] (or a [bool] when only its presence is
      tested); a state setter takes a value or an updater function.
    - A [useFrame] callback is a function from the mutable objects it touches
      to their contents after the call; a click handler or interval callback
      is a function on the component state. *)

From Stdlib Require Import Reals Lra ZArith Lia String.
From stdpp Require Import base list.
From Stdlib Require Lqa.
From Stdlib Require PrimFloat SpecFloat FloatOps.
From Corelib Require Uint63Axioms.

Set Warnings "-inexact-float".

(** ** Stages and navigation *)

Module Stage.

Open Scope string_scope.
Open Scope Z_scope.

Record step_t := { key : string; title : string }.

Definition STEPS : list step_t :=
  [ {| key := "air"; title := "Entrada de aire" |};
    {| key := "condensation"; title := "Condensación" |};
    {| key := "filtration"; title := "Filtración" |};
    {| key := "uv_tank"; title := "UV + Tanque" |};
    {| key := "dispense"; title := "Dispensado" |};
    {| key := "mineral"; title := "Mineralización" |} ].

(** [STEPS.length] *)
Definition STEPS_length : Z := Z.of_nat (length STEPS).

(** [STEPS[stepIndex].key]; [None] where JavaScript would read a property of
    [undefined]. *)
Definition step_key (stepIndex : Z) : option string :=
  if stepIndex <? 0 then None
  else key <$> (STEPS !! Z.to_nat stepIndex).

(** The argument of a React state setter: a new value, or a function of the
    previous value. *)
Inductive setter_arg : Type :=
| Value (v : Z)
| Updater (f : Z -> Z).

Definition setStepIndex (a : setter_arg) (i : Z) : Z :=
  match a with
  | Value v => v
  | Updater f => f i
  end.

(** [onClick] of the button "Anterior" and its [disabled] attribute. *)
Definition onAnterior : setter_arg := Updater (fun i => Z.max 0 (i - 1)).
Definition anteriorDisabled (stepIndex : Z) : bool := stepIndex =? 0.

(** [onClick] of the button "Siguiente" and its [disabled] attribute. *)
Definition onSiguiente : setter_arg :=
  Updater (fun i => Z.min (STEPS_length - 1) (i + 1)).
Definition siguienteDisabled (stepIndex : Z) : bool :=
  stepIndex =? STEPS_length - 1.

(** [onClick] of the button "Reiniciar". *)
Definition onReiniciar : setter_arg := Value 0.

(** The callback of [setInterval] in the auto-play effect; [%] is the
    JavaScript remainder. *)
Definition onInterval : setter_arg :=
  Updater (fun i => Z.rem (i + 1) STEPS_length).

(** [StepDots]: one button per entry of [STEPS], in order; the button at
    position [idx] calls [setStepIndex(idx)]. *)
Definition StepDots : list setter_arg :=
  imap (fun idx _ => Value (Z.of_nat idx)) STEPS.

(** The state of the component [AwgSimulator]. *)
Record app := { stepIndex : Z; autoPlay : bool }.

Definition initial : app := {| stepIndex := 2; autoPlay := true |}.

Inductive event : Type :=
| ClickAnterior
| ClickSiguiente
| ClickReiniciar
| ClickDemo
| ClickDot (idx : nat)
| IntervalFires.

Definition with_index (s : app) (i : Z) : app :=
  {| stepIndex := i; autoPlay := autoPlay s |}.

(** One event of the page.  A disabled button does not run its handler, a dot
    that is not rendered cannot be clicked, and the interval only exists
    while [autoPlay] holds. *)
Definition dispatch (e : event) (s : app) : app :=
  match e with
  | ClickAnterior =>
      if anteriorDisabled (stepIndex s) then s
      else with_index s (setStepIndex onAnterior (stepIndex s))
  | ClickSiguiente =>
      if siguienteDisabled (stepIndex s) then s
      else with_index s (setStepIndex onSiguiente (stepIndex s))
  | ClickReiniciar => with_index s (setStepIndex onReiniciar (stepIndex s))
  | ClickDemo => {| stepIndex := stepIndex s; autoPlay := negb (autoPlay s) |}
  | ClickDot idx =>
      match StepDots !! idx with
      | Some h => with_index s (setStepIndex h (stepIndex s))
      | None => s
      end
  | IntervalFires =>
      if autoPlay s then with_index s (setStepIndex onInterval (stepIndex s))
      else s
  end.

Definition run (es : list event) (s : app) : app :=
  foldl (fun s e => dispatch e s) s es.

Definition valid_index (i : Z) : Prop := 0 <= i < STEPS_length.

End Stage.

(** ** Numbers *)

Module Num.

Open Scope R_scope.

(** [clamp01 = (v) => Math.max(0, Math.min(1, v))] *)
Definition clamp01 (v : R) : R := Rmax 0 (Rmin 1 v).

(** [Math.pow(b, x)] for a positive base. *)
Definition Math_pow (b x : R) : R := Rpower b x.

(** [cur += (target - cur) * (1 - Math.pow(rate, delta))]: the value of [cur]
    after the assignment.  Both water levels of [AwgModel] use it with
    [rate = 0.001]. *)
Definition approach (rate cur target delta : R) : R :=
  cur + (target - cur) * (1 - Math_pow rate delta).

(** A JavaScript array of three numbers ([box], [direction]). *)
Record arr3 := { a0 : R; a1 : R; a2 : R }.

(** [THREE.Vector3] *)
Record Vector3 := { x : R; y : R; z : R }.

Definition Vector3_length (d : Vector3) : R :=
  sqrt (x d * x d + y d * y d + z d * z d).

(** [d.normalize()], which is [d.divideScalar(d.length() || 1)]. *)
Definition Vector3_normalize (d : Vector3) : Vector3 :=
  let l := Vector3_length d in
  let l := if Req_dec_T l 0 then 1 else l in
  {| x := x d / l; y := y d / l; z := z d / l |}.

End Num.

(** ** The component [Particles], read on exact reals *)

Module Particles.

Import Num.
Open Scope R_scope.

(** The props the simulation reads ([color] and [size] only reach the
    material). *)
Record props := {
  count : nat;
  speed : R;
  active : bool;
  box : arr3;
  direction : arr3;
  swirl : R
}.

Definition default_props : props :=
  {| count := 900; speed := 0.35; active := true;
     box := {| a0 := 1.2; a1 := 0.6; a2 := 0.6 |};
     direction := {| a0 := 1; a1 := 0; a2 := 0 |};
     swirl := 0.0 |}.

(** [dir]: the direction as a unit vector, [(1,0,0)] when it has length 0. *)
Definition dir (p : props) : Vector3 :=
  let d := {| x := a0 (direction p); y := a1 (direction p);
              z := a2 (direction p) |} in
  let d := if Req_dec_T (Vector3_length d) 0
           then {| x := 1; y := 0; z := 0 |} else d in
  Vector3_normalize d.

(** What [points.current] refers to once the [<points>] object is mounted:
    the array behind [geometry.attributes.position] and its [needsUpdate]
    flag. *)
Record points_obj := { position_array : list R; needsUpdate : bool }.

(** [a[i]] as a number; the cells read by the loop exist whenever the array
    has [count * 3] cells. *)
Definition get (a : list R) (i : nat) : R := default 0 (a !! i).

(** [pos[i] += d] *)
Definition add_at (pos : list R) (i : nat) (d : R) : list R :=
  <[i := get pos i + d]> pos.

(** [if (pos[i] > h) pos[i] = -h], with a cell that keeps [-h] exactly; the
    [Float32Array] cell of the code is [Field.wrap_hi]. *)
Definition wrap_hi (pos : list R) (i : nat) (h : R) : list R :=
  if Rgt_dec (get pos i) h then <[i := - h]> pos else pos.

(** [if (pos[i] < -h) pos[i] = h], with a cell that keeps [h] exactly; the
    [Float32Array] cell of the code is [Field.wrap_lo]. *)
Definition wrap_lo (pos : list R) (i : nat) (h : R) : list R :=
  if Rlt_dec (get pos i) (- h) then <[i := h]> pos else pos.

(** The three additions [pos[ix] += dir.x * speed * delta] (and likewise for
    [iy], [iz]) at the head of the loop body. *)
Definition advect (p : props) (delta : R) (i : nat) (pos : list R)
  : list R :=
  let ix := (i * 3 + 0)%nat in
  let iy := (i * 3 + 1)%nat in
  let iz := (i * 3 + 2)%nat in
  let pos := add_at pos ix (x (dir p) * speed p * delta) in
  let pos := add_at pos iy (y (dir p) * speed p * delta) in
  add_at pos iz (z (dir p) * speed p * delta).

(** [if (swirl > 0) { const p = phases[i] + t * (0.8 + swirl * 1.2); ... }] *)
Definition swirl_step (p : props) (phs : list R) (t : R) (i : nat)
    (pos : list R) : list R :=
  let iy := (i * 3 + 1)%nat in
  let iz := (i * 3 + 2)%nat in
  if Rgt_dec (swirl p) 0 then
    let ph := get phs i + t * (0.8 + swirl p * 1.2) in
    let pos := add_at pos iy (sin ph * swirl p * 0.02) in
    add_at pos iz (cos ph * swirl p * 0.02)
  else pos.

(** The two tests on one cell, in the order of the source. *)
Definition wrap_axis (pos : list R) (i : nat) (h : R) : list R :=
  wrap_lo (wrap_hi pos i h) i h.

(** The six tests that close the loop body. *)
Definition wrap_box (p : props) (i : nat) (pos : list R) : list R :=
  let halfX := a0 (box p) / 2 in
  let halfY := a1 (box p) / 2 in
  let halfZ := a2 (box p) / 2 in
  let ix := (i * 3 + 0)%nat in
  let iy := (i * 3 + 1)%nat in
  let iz := (i * 3 + 2)%nat in
  let pos := wrap_axis pos ix halfX in
  let pos := wrap_axis pos iy halfY in
  wrap_axis pos iz halfZ.

(** The body of the [for] loop for particle [i]. *)
Definition body (p : props) (phs : list R) (t delta : R) (i : nat)
    (pos : list R) : list R :=
  wrap_box p i (swirl_step p phs t i (advect p delta i pos)).

(** The iterations [i = 0 .. n-1] of the loop, in order. *)
Definition loop_upto (p : props) (phs : list R) (t delta : R) (n : nat)
    (pos : list R) : list R :=
  foldl (fun pos i => body p phs t delta i pos) pos (seq 0 n).

(** [for (let i = 0; i < count; i++) ...] *)
Definition loop (p : props) (phs : list R) (t delta : R) (pos : list R)
  : list R :=
  loop_upto p phs t delta (count p) pos.

(** The [useFrame] callback: [t] is [state.clock.getElapsedTime()]. *)
Definition useFrame (p : props) (phs : list R) (t delta : R)
    (points : option points_obj) : option points_obj :=
  if negb (active p) then points
  else
    match points with
    | None => None
    | Some o =>
        Some {| position_array := loop p phs t delta (position_array o);
                needsUpdate := true |}
    end.

(** Particle [i] of the array [pos] has its three cells, each within the
    half extent of the box on its axis. *)
Definition in_box (p : props) (pos : list R) (i : nat) : Prop :=
  exists px py pz : R,
    pos !! (i * 3 + 0)%nat = Some px /\
    pos !! (i * 3 + 1)%nat = Some py /\
    pos !! (i * 3 + 2)%nat = Some pz /\
    - (a0 (box p) / 2) <= px <= a0 (box p) / 2 /\
    - (a1 (box p) / 2) <= py <= a1 (box p) / 2 /\
    - (a2 (box p) / 2) <= pz <= a2 (box p) / 2.

End Particles.

(** ** The component [AwgModel] *)

Module AwgModel.

Import Num.
Open Scope string_scope.
Open Scope R_scope.

(** The objects the [useFrame] callback of [AwgModel] mutates.  A ref that
    carries a number holds [rotation.z] (fan) or [scale.y] (water meshes) of
    the mesh it points to, and is [None] while nothing is mounted. *)
Record scene := {
  fanRef : option R;
  coilGlowRef : bool;
  coilMat_emissiveIntensity : R;
  uvRef : bool;
  uvMat_emissiveIntensity : R;
  dirtyWaterRef : option R;
  cleanWaterRef : option R
}.

(** The scene as it is first rendered. *)
Definition mounted : scene :=
  {| fanRef := Some 0;
     coilGlowRef := true; coilMat_emissiveIntensity := 0.08;
     uvRef := true; uvMat_emissiveIntensity := 0.15;
     dirtyWaterRef := Some 0.22;
     cleanWaterRef := Some 0.25 |}.

(** [const base = 1.2 + flow * 10.0] *)
Definition fan_base (flow : R) : R := 1.2 + flow * 10.0.

(** [const mult = step === "air" ? 1.0 : 0.20] *)
Definition fan_mult (step : string) : R :=
  if (step =? "air")%string then 1.0 else 0.20.

(** [step === "condensation" ? 0.25 + cond * 0.85 : 0.08] *)
Definition coil_glow (step : string) (cond : R) : R :=
  if (step =? "condensation")%string then 0.25 + cond * 0.85 else 0.08.

(** [step === "uv_tank" ? 0.6 + flow * 0.9 : 0.12] *)
Definition uv_glow (step : string) (flow : R) : R :=
  if (step =? "uv_tank")%string then 0.6 + flow * 0.9 else 0.12.

(** [step === "filtration" || step === "condensation" ? 0.15 : 0.22] *)
Definition dirty_target (step : string) : R :=
  if (step =? "filtration")%string || (step =? "condensation")%string
  then 0.15 else 0.22.

(** [step === "uv_tank" || step === "dispense" || step === "mineral"
     ? 0.33 : 0.25] *)
Definition clean_target (step : string) : R :=
  if (step =? "uv_tank")%string || (step =? "dispense")%string
     || (step =? "mineral")%string
  then 0.33 else 0.25.

(** The [useFrame] callback of [AwgModel]. *)
Definition useFrame (step : string) (fluidFlow tempCondensation delta : R)
    (s : scene) : scene :=
  let flow := clamp01 fluidFlow in
  let cond := clamp01 tempCondensation in
  {| fanRef :=
       match fanRef s with
       | Some rz => Some (rz + fan_base flow * fan_mult step * delta)
       | None => None
       end;
     coilGlowRef := coilGlowRef s;
     coilMat_emissiveIntensity :=
       if coilGlowRef s then coil_glow step cond
       else coilMat_emissiveIntensity s;
     uvRef := uvRef s;
     uvMat_emissiveIntensity :=
       if uvRef s then uv_glow step flow else uvMat_emissiveIntensity s;
     dirtyWaterRef :=
       match dirtyWaterRef s with
       | Some sy => Some (approach 0.001 sy (dirty_target step) delta)
       | None => None
       end;
     cleanWaterRef :=
       match cleanWaterRef s with
       | Some sy => Some (approach 0.001 sy (clean_target step) delta)
       | None => None
       end |}.

(** Particle speeds. *)
Definition airSpeed (fluidFlow : R) : R := 0.20 + clamp01 fluidFlow * 0.75.
Definition waterSpeed (fluidFlow : R) : R := 0.15 + clamp01 fluidFlow * 1.0.
Definition condSpeed (tempCondensation : R) : R :=
  0.08 + clamp01 tempCondensation * 0.45.

(** One [<Particles active={step === owner} .../>] element; [count] is left
    to its default. *)
Definition element (step owner : string) (sp : R) (b d : arr3) (sw : R)
  : string * Particles.props :=
  (owner,
   {| Particles.count := Particles.count Particles.default_props;
      Particles.speed := sp;
      Particles.active := (step =? owner)%string;
      Particles.box := b;
      Particles.direction := d;
      Particles.swirl := sw |}).

Definition arr (u v w : R) : arr3 := {| a0 := u; a1 := v; a2 := w |}.

(** The six particle fields of the model, each with the stage key its
    [active] prop compares [step] with. *)
Definition fields (step : string) (fluidFlow tempCondensation : R)
  : list (string * Particles.props) :=
  [ element step "air" (airSpeed fluidFlow)
      (arr 1.4 0.55 0.55) (arr 1 0 0) 0.6;
    element step "condensation" (condSpeed tempCondensation)
      (arr 0.7 0.35 0.35) (arr 0 (-1) 0) 0.25;
    element step "filtration" (waterSpeed fluidFlow)
      (arr 1.8 0.25 0.25) (arr 1 0 0) 0.15;
    element step "uv_tank" (0.15 + waterSpeed fluidFlow * 0.35)
      (arr 1.0 0.25 0.25) (arr 1 0 0) 0.12;
    element step "dispense" (0.25 + waterSpeed fluidFlow * 0.35)
      (arr 0.30 0.55 0.30) (arr 0 (-1) 0) 0.0;
    element step "mineral" (0.08 + waterSpeed fluidFlow * 0.18)
      (arr 0.9 0.25 0.25) (arr 1 0 0) 0.20 ].

(** What one frame is rendered with: the stage key, both sliders, the
    elapsed time and the frame delta. *)
Record frame_input := {
  in_step : string;
  in_fluidFlow : R;
  in_tempCondensation : R;
  in_elapsed : R;
  in_delta : R
}.

(** The stage key the field at position [k] belongs to. *)
Definition owner (k : nat) : option string :=
  fst <$> (fields "" 0 0 !! k).

End AwgModel.

(** ** The component [AwgGLB] (the variant that loads a GLB model) *)

Module AwgGLB.

Import Num.
Open Scope string_scope.
Open Scope R_scope.

(** The nodes looked up by name in the loaded scene.  [fan] holds
    [rotation.z]; [coil] and [uv] hold [material.emissiveIntensity] and are
    [None] unless the node, its material and the material's [emissive] all
    exist. *)
Record scene := { fan : option R; coil : option R; uv : option R }.

(** [step === "condensation" ? 0.25 + 0.9 * cond : 0.08] *)
Definition coil_glow (step : string) (cond : R) : R :=
  if (step =? "condensation")%string then 0.25 + 0.9 * cond else 0.08.

Definition useFrame (step : string) (fluidFlow tempCondensation delta : R)
    (s : scene) : scene :=
  let flow := clamp01 fluidFlow in
  let cond := clamp01 tempCondensation in
  {| fan :=
       match fan s with
       | Some rz =>
           let mult := if (step =? "air")%string then 1.0 else 0.15 in
           Some (rz + (1.2 + flow * 10.0) * mult * delta)
       | None => None
       end;
     coil :=
       match coil s with
       | Some _ => Some (coil_glow step cond)
       | None => None
       end;
     uv :=
       match uv s with
       | Some _ =>
           Some (if (step =? "uv_tank")%string then 0.7 + 0.8 * flow
                 else 0.12)
       | None => None
       end |}.

End AwgGLB.

(** ** What the page shows for a stage index *)

Module Page.

Import Stage.
Open Scope Z_scope.

(** [StepDots]: the dot at position [idx] is drawn in the highlight colour
    when [idx === stepIndex]. *)
Definition dot_selected (stepIndex : Z) : list bool :=
  imap (fun idx _ => Z.of_nat idx =? stepIndex) STEPS.

(** [STEPS[stepIndex].title] in the header; [None] where JavaScript would
    read a property of [undefined]. *)
Definition header_title (stepIndex : Z) : option string :=
  if stepIndex <? 0 then None
  else title <$> (STEPS !! Z.to_nat stepIndex).

End Page.

(** ** Successive frames of [AwgModel] *)

Module ModelRun.

Import Num.
Open Scope R_scope.

(** One frame of the model, rendered with the inputs [i]. *)
Definition scene_frame (i : AwgModel.frame_input) (s : AwgModel.scene)
  : AwgModel.scene :=
  AwgModel.useFrame (AwgModel.in_step i) (AwgModel.in_fluidFlow i)
    (AwgModel.in_tempCondensation i) (AwgModel.in_delta i) s.

Definition scene_frames (ins : list AwgModel.frame_input)
    (s : AwgModel.scene) : AwgModel.scene :=
  foldl (fun s i => scene_frame i s) s ins.

(** Frames at a fixed stage and fixed sliders, one per frame delta. *)
Definition steady_frames (step : string) (fluidFlow tempCondensation : R)
    (deltas : list R) (s : AwgModel.scene) : AwgModel.scene :=
  foldl (fun s d => AwgModel.useFrame step fluidFlow tempCondensation d s)
        s deltas.

(** The sum of the frame deltas: the time the frames span. *)
Definition elapsed (deltas : list R) : R := foldr Rplus 0 deltas.

End ModelRun.

(** ** The component [Tanks] (the variant built from separate components) *)

Module Tanks.

Import Num.
Open Scope string_scope.
Open Scope R_scope.

(** [scale.y] of the two water meshes; [None] while a mesh is not mounted. *)
Record meshes := { dirtyRef : option R; cleanRef : option R }.

(** The meshes as they are first rendered. *)
Definition mounted : meshes :=
  {| dirtyRef := Some 0.3; cleanRef := Some 0.28 |}.

Definition targetDirty (step : string) : R :=
  if (step =? "filtration")%string || (step =? "condensation")%string
  then 0.22 else 0.30.

Definition targetClean (step : string) : R :=
  if (step =? "uv_tank")%string || (step =? "dispense")%string
     || (step =? "mineral")%string
  then 0.42 else 0.28.

(** The [useFrame] callback of [Tanks]: it returns at once unless both
    meshes are mounted. *)
Definition useFrame (step : string) (delta : R) (m : meshes) : meshes :=
  match dirtyRef m, cleanRef m with
  | Some d, Some c =>
      {| dirtyRef := Some (approach 0.001 d (targetDirty step) delta);
         cleanRef := Some (approach 0.001 c (targetClean step) delta) |}
  | _, _ => m
  end.

(** Successive frames, each with the stage key and the delta of its
    moment. *)
Definition frames (ins : list (string * R)) (m : meshes) : meshes :=
  foldl (fun m sd => useFrame sd.1 sd.2 m) m ins.

End Tanks.

(** ** The HTML page "Osoley AWG Technical Simulator" *)

Module Osoley.

Import QArith Qminmax.
Open Scope string_scope.
Open Scope Q_scope.

(** The script's variables [lvl1] and [lvl2]: the fill of the two tanks, in
    percent. *)
Record tanks := { lvl1 : Q; lvl2 : Q }.

(** [let lvl1 = 0, lvl2 = 0] *)
Definition empty : tanks := {| lvl1 := 0; lvl2 := 0 |}.

(** [(105 - flow) / 35], the period of the fan animation in seconds. *)
Definition fan_period (flow : Q) : Q := (105 - flow) / 35.

(** [rate]: the production shown on the display. *)
Definition rate (flow temp : Q) : Q :=
  let efficiency := (flow / 100) * (26 - temp) in
  Qmax 0 (efficiency / 5).

(** The text of the status tag. *)
Definition status (r : Q) : string :=
  if Qlt_le_dec 1 r then "MODO: PRODUCIENDO" else "MODO: BAJA EFICIENCIA".

(** [coreLogic()]: the effect on the two levels; [flow] and [temp] are the
    values of the two sliders. *)
Definition coreLogic (flow temp : Q) (s : tanks) : tanks :=
  let r := rate flow temp in
  if Qlt_le_dec 0 r then
    let l1 := Qmin 100 (lvl1 s + r / 15) in
    let l2 := if Qlt_le_dec 20 l1 then Qmin 100 (lvl2 s + r / 20)
              else lvl2 s in
    {| lvl1 := l1; lvl2 := l2 |}
  else s.

(** [reset()] *)
Definition reset (flow temp : Q) (s : tanks) : tanks :=
  coreLogic flow temp {| lvl1 := 0; lvl2 := 0 |}.

(** The calls of [coreLogic] made by the interval and by slider input, each
    with the slider values of its moment. *)
Definition run (calls : list (Q * Q)) (s : tanks) : tanks :=
  foldl (fun s ft => coreLogic ft.1 ft.2 s) s calls.

(** The sliders' ranges: [min="0" max="100"] and [min="1" max="25"]. *)
Definition sliders_in_range (flow temp : Q) : Prop :=
  0 <= flow <= 100 /\ 1 <= temp <= 25.

(** Both levels are percentages. *)
Definition within (s : tanks) : Prop :=
  0 <= lvl1 s <= 100 /\ 0 <= lvl2 s <= 100.

End Osoley.

(** ** Numbers as the engine has them *)

Module Js.

Import PrimFloat SpecFloat FloatOps.
Open Scope float_scope.

(** [Math.fround]: the binary32 value nearest to a double, ties to even; it
    is what a store into a [Float32Array] keeps. *)
Definition fround (v : float) : float :=
  match Prim2SF v with
  | S754_finite s m e => SF2Prim (binary_round 24 128 s m e)
  | _ => v
  end.

(** [Math.PI] *)
Definition Math_PI : float := 3.141592653589793.

(** [Math.max(a, b)] and [Math.min(a, b)]: NaN if either is NaN, and [-0]
    counts as smaller than [+0]. *)
Definition Math_max (a b : float) : float :=
  if is_nan a || is_nan b then nan
  else if a <? b then b
  else if b <? a then a
  else if is_zero a && get_sign a then b else a.

Definition Math_min (a b : float) : float :=
  if is_nan a || is_nan b then nan
  else if a <? b then a
  else if b <? a then b
  else if is_zero a && get_sign a then a else b.

(** [clamp01 = (v) => Math.max(0, Math.min(1, v))] *)
Definition clamp01 (v : float) : float := Math_max 0 (Math_min 1 v).

(** [l || 1] for a number [l]: 1 when [l] is 0 or NaN. *)
Definition or_one (l : float) : float :=
  if is_nan l || (l =? 0) then 1 else l.

(** What the engine supplies: [Math.sin], [Math.cos] (whose results the
    language leaves to the implementation) and the results of the calls of
    [Math.random()] that one [Particles] element makes, in the order it
    makes them. *)
Record Math := {
  Math_sin : float -> float;
  Math_cos : float -> float;
  Math_random : nat -> float
}.

(** [a[i]] on a [Float32Array], used as a number: outside the array the read
    gives [undefined], which is NaN in arithmetic and false in comparisons. *)
Definition get (a : list float) (i : nat) : float := default nan (a !! i).

(** [a[i] = v] on a [Float32Array]: the cell keeps [fround v]; outside the
    array nothing happens. *)
Definition put (a : list float) (i : nat) (v : float) : list float :=
  <[i := fround v]> a.

End Js.

(** ** The component [Particles] on IEEE numbers *)

Module Field.

Import PrimFloat Js.
Open Scope float_scope.

Record arr3 := { a0 : float; a1 : float; a2 : float }.

(** The props the simulation reads.  [box_id] is the identity of the array
    passed as [box]: two array literals are never the same object, even with
    equal contents. *)
Record props := {
  count : nat;
  speed : float;
  active : bool;
  box_id : nat;
  box : arr3;
  direction : arr3;
  swirl : float
}.

Record Vector3 := { x : float; y : float; z : float }.

Definition Vector3_length (d : Vector3) : float :=
  sqrt (x d * x d + y d * y d + z d * z d).

(** [d.normalize()]: [d.multiplyScalar(1 / (d.length() || 1))]. *)
Definition Vector3_normalize (d : Vector3) : Vector3 :=
  let s := 1 / or_one (Vector3_length d) in
  {| x := x d * s; y := y d * s; z := z d * s |}.

Definition dir (p : props) : Vector3 :=
  let d := {| x := a0 (direction p); y := a1 (direction p);
              z := a2 (direction p) |} in
  let d := if Vector3_length d =? 0
           then {| x := 1; y := 0; z := 0 |} else d in
  Vector3_normalize d.

(** The array built by the [positions] memo when the calls of
    [Math.random()] it makes are the calls number [k], [k+1], ... *)
Fixpoint positions_from (M : Math) (n : nat) (b : arr3) (k : nat)
  : list float :=
  match n with
  | O => []
  | S n' =>
      fround ((Math_random M k - 0.5) * a0 b) ::
      fround ((Math_random M (k + 1) - 0.5) * a1 b) ::
      fround ((Math_random M (k + 2) - 0.5) * a2 b) ::
      positions_from M n' b (k + 3)
  end.

Definition positions (M : Math) (p : props) (k : nat) : list float :=
  positions_from M (count p) (box p) k.

(** The array built by the [phases] memo, from call number [k] on. *)
Definition phases (M : Math) (p : props) (k : nat) : list float :=
  map (fun i => fround (Math_random M (k + i) * Math_PI * 2))
      (seq 0 (count p)).

(** [pos[i] += d] *)
Definition add_at (pos : list float) (i : nat) (d : float) : list float :=
  put pos i (get pos i + d).

(** [if (pos[i] > h) pos[i] = -h] *)
Definition wrap_hi (pos : list float) (i : nat) (h : float) : list float :=
  if h <? get pos i then put pos i (- h) else pos.

(** [if (pos[i] < -h) pos[i] = h] *)
Definition wrap_lo (pos : list float) (i : nat) (h : float) : list float :=
  if get pos i <? - h then put pos i h else pos.

Definition wrap_axis (pos : list float) (i : nat) (h : float) : list float :=
  wrap_lo (wrap_hi pos i h) i h.

Definition advect (p : props) (delta : float) (i : nat) (pos : list float)
  : list float :=
  let ix := (i * 3 + 0)%nat in
  let iy := (i * 3 + 1)%nat in
  let iz := (i * 3 + 2)%nat in
  let pos := add_at pos ix (x (dir p) * speed p * delta) in
  let pos := add_at pos iy (y (dir p) * speed p * delta) in
  add_at pos iz (z (dir p) * speed p * delta).

Definition swirl_step (M : Math) (p : props) (phs : list float) (t : float)
    (i : nat) (pos : list float) : list float :=
  let iy := (i * 3 + 1)%nat in
  let iz := (i * 3 + 2)%nat in
  if 0 <? swirl p then
    let ph := get phs i + t * (0.8 + swirl p * 1.2) in
    let pos := add_at pos iy (Math_sin M ph * swirl p * 0.02) in
    add_at pos iz (Math_cos M ph * swirl p * 0.02)
  else pos.

Definition wrap_box (p : props) (i : nat) (pos : list float) : list float :=
  let halfX := a0 (box p) / 2 in
  let halfY := a1 (box p) / 2 in
  let halfZ := a2 (box p) / 2 in
  let ix := (i * 3 + 0)%nat in
  let iy := (i * 3 + 1)%nat in
  let iz := (i * 3 + 2)%nat in
  let pos := wrap_axis pos ix halfX in
  let pos := wrap_axis pos iy halfY in
  wrap_axis pos iz halfZ.

(** The body of the [for] loop for particle [i]. *)
Definition body (M : Math) (p : props) (phs : list float) (t delta : float)
    (i : nat) (pos : list float) : list float :=
  wrap_box p i (swirl_step M p phs t i (advect p delta i pos)).

Definition loop_upto (M : Math) (p : props) (phs : list float)
    (t delta : float) (n : nat) (pos : list float) : list float :=
  foldl (fun pos i => body M p phs t delta i pos) pos (seq 0 n).

(** One mounted [Particles] element: the props of its last render (the
    dependencies its memos were last compared with), the array behind
    [points.current.geometry.attributes.position], the array of phases, the
    [needsUpdate] flag, and how many calls of [Math.random()] it has made. *)
Record instance := {
  shown : props;
  position_array : list float;
  phase_array : list float;
  needsUpdate : bool;
  draws : nat
}.

(** The first render: both memos are computed, positions first. *)
Definition mount (M : Math) (p : props) : instance :=
  {| shown := p;
     position_array := positions M p 0;
     phase_array := phases M p (count p * 3);
     needsUpdate := false;
     draws := count p * 3 + count p |}.

(** A later render with props [p]: [useMemo(..., [count, box])] recomputes
    the positions when [count] changed or [box] is another object, and
    [useMemo(..., [count])] recomputes the phases when [count] changed; a new
    positions array replaces the one behind the position attribute. *)
Definition render (M : Math) (p : props) (s : instance) : instance :=
  let same_count := Nat.eqb (count p) (count (shown s)) in
  let same_box := Nat.eqb (box_id p) (box_id (shown s)) in
  let redo := negb (same_count && same_box) in
  let d := if redo then (draws s + count p * 3)%nat else draws s in
  {| shown := p;
     position_array :=
       if redo then positions M p (draws s) else position_array s;
     phase_array := if same_count then phase_array s else phases M p d;
     needsUpdate := if redo then false else needsUpdate s;
     draws := if same_count then d else (d + count p)%nat |}.

(** The [useFrame] callback, with the props of the last render. *)
Definition useFrame (M : Math) (t delta : float) (s : instance) : instance :=
  let p := shown s in
  if negb (active p) then s
  else
    {| shown := p;
       position_array :=
         loop_upto M p (phase_array s) t delta (count p) (position_array s);
       phase_array := phase_array s;
       needsUpdate := true;
       draws := draws s |}.

End Field.

(** ** One particle, read off the loop body *)

Module FieldStep.

Import PrimFloat Js Field.
Open Scope float_scope.

(** The two tests on one cell: what the cell holds after them when it held
    [v] before. *)
Definition wrap_value (v h : float) : float :=
  let v := if h <? v then fround (- h) else v in
  if v <? - h then fround h else v.

(** The three cells of one particle after the loop body, from the three
    before it; [ph] is what [phases[i]] reads. *)
Definition step (M : Math) (p : props) (ph t delta : float)
    (c : float * float * float) : float * float * float :=
  let '(cx, cy, cz) := c in
  let cx := fround (cx + x (dir p) * speed p * delta) in
  let cy := fround (cy + y (dir p) * speed p * delta) in
  let cz := fround (cz + z (dir p) * speed p * delta) in
  let '(cy, cz) :=
    if 0 <? swirl p then
      let a := ph + t * (0.8 + swirl p * 1.2) in
      (fround (cy + Math_sin M a * swirl p * 0.02),
       fround (cz + Math_cos M a * swirl p * 0.02))
    else (cy, cz) in
  (wrap_value cx (a0 (box p) / 2),
   wrap_value cy (a1 (box p) / 2),
   wrap_value cz (a2 (box p) / 2)).

Definition particle (pos : list float) (i : nat)
  : option (float * float * float) :=
  match pos !! (i * 3 + 0)%nat, pos !! (i * 3 + 1)%nat,
        pos !! (i * 3 + 2)%nat with
  | Some cx, Some cy, Some cz => Some (cx, cy, cz)
  | _, _, _ => None
  end.

End FieldStep.

(** ** The particle fields of [AwgModel] on IEEE numbers, over renders *)

Module Scene.

Import PrimFloat Js.
Open Scope string_scope.
Open Scope float_scope.

Definition airSpeed (fluidFlow : float) : float :=
  0.20 + clamp01 fluidFlow * 0.75.
Definition waterSpeed (fluidFlow : float) : float :=
  0.15 + clamp01 fluidFlow * 1.0.
Definition condSpeed (tempCondensation : float) : float :=
  0.08 + clamp01 tempCondensation * 0.45.

Definition arr (u v w : float) : Field.arr3 :=
  {| Field.a0 := u; Field.a1 := v; Field.a2 := w |}.

(** One [<Particles active={step === owner} box={[...]} .../>] element of
    render number [r], at position [k] of the six: its [box] literal is an
    array made by that render, so its identity is new with every render. *)
Definition element (r k : nat) (step owner : string) (sp : float)
    (b d : Field.arr3) (sw : float) : string * Field.props :=
  (owner,
   {| Field.count := 900;
      Field.speed := sp;
      Field.active := (step =? owner)%string;
      Field.box_id := (r * 6 + k)%nat;
      Field.box := b;
      Field.direction := d;
      Field.swirl := sw |}).

Definition fields (r : nat) (step : string) (fluidFlow tempCondensation : float)
  : list (string * Field.props) :=
  [ element r 0 step "air" (airSpeed fluidFlow)
      (arr 1.4 0.55 0.55) (arr 1 0 0) 0.6;
    element r 1 step "condensation" (condSpeed tempCondensation)
      (arr 0.7 0.35 0.35) (arr 0 (-1) 0) 0.25;
    element r 2 step "filtration" (waterSpeed fluidFlow)
      (arr 1.8 0.25 0.25) (arr 1 0 0) 0.15;
    element r 3 step "uv_tank" (0.15 + waterSpeed fluidFlow * 0.35)
      (arr 1.0 0.25 0.25) (arr 1 0 0) 0.12;
    element r 4 step "dispense" (0.25 + waterSpeed fluidFlow * 0.35)
      (arr 0.30 0.55 0.30) (arr 0 (-1) 0) 0.0;
    element r 5 step "mineral" (0.08 + waterSpeed fluidFlow * 0.18)
      (arr 0.9 0.25 0.25) (arr 1 0 0) 0.20 ].

(** What happens to the model: it is rendered again (the stage or a slider
    changed), or a frame is drawn. *)
Inductive happening : Type :=
| Render (step : string) (fluidFlow tempCondensation : float)
| Frame (t delta : float).

(** The field at position [k], with the number of renders so far. *)
Record track := { renders : nat; inst : Field.instance }.

(** The first render of the model. *)
Definition start (M : Math) (k : nat) (step : string)
    (fluidFlow tempCondensation : float) : option track :=
  match fields 0 step fluidFlow tempCondensation !! k with
  | Some (_, p) => Some {| renders := 0; inst := Field.mount M p |}
  | None => None
  end.

Definition happen (M : Math) (k : nat) (h : happening) (w : track) : track :=
  match h with
  | Render step fluidFlow tempCondensation =>
      match fields (S (renders w)) step fluidFlow tempCondensation !! k with
      | Some (_, p) =>
          {| renders := S (renders w); inst := Field.render M p (inst w) |}
      | None => w
      end
  | Frame t delta =>
      {| renders := renders w; inst := Field.useFrame M t delta (inst w) |}
  end.

Definition play (M : Math) (k : nat) (hs : list happening) (w : track)
  : track :=
  foldl (fun w h => happen M k h w) w hs.

End Scene.

(** ** Concrete inputs *)

Module Probe.

Import PrimFloat Js.
Open Scope float_scope.

(** A fixed stream of results of [Math.random()], all in [0, 1): call number
    [n] gives [((37 n + 11) mod 101) / 101]. *)
Definition random (n : nat) : float :=
  of_uint63 (Uint63Axioms.of_Z ((37 * Z.of_nat n + 11) mod 101)) / 101.

Definition engine (sin cos : float -> float) : Math :=
  {| Math_sin := sin; Math_cos := cos; Math_random := random |}.

(** The props of the "dispense" field at render [r], flow slider 0.62 and
    condensation slider 0.58, on stage [step]. *)
Definition dispense (r : nat) (step : string) : option Field.props :=
  snd <$> (Scene.fields r step 0.62 0.58 !! 4%nat).

End Probe.

(** * Properties *)

(** ** Stage navigation *)

Section StageFacts.

Import Stage.
Open Scope Z_scope.

Lemma STEPS_length_eq : STEPS_length = 6.
Proof. reflexivity. Qed.

Lemma StepDots_length : length StepDots = length STEPS.
Proof. unfold StepDots. by rewrite length_imap. Qed.

Lemma StepDots_lookup (idx : nat) (h : setter_arg) :
  StepDots !! idx = Some h ->
  h = Value (Z.of_nat idx) /\ valid_index (Z.of_nat idx).
Proof.
  intros Hh. pose proof (lookup_lt_Some _ _ _ Hh) as Hlt.
  rewrite StepDots_length in Hlt.
  unfold StepDots in Hh. rewrite list_lookup_imap in Hh.
  destruct (STEPS !! idx) as [st|] eqn:E; simpl in Hh; [|discriminate].
  split; [congruence|].
  unfold valid_index, STEPS_length. lia.
Qed.

Lemma StepDots_lookup_lt (idx : nat) :
  (idx < length STEPS)%nat -> StepDots !! idx = Some (Value (Z.of_nat idx)).
Proof.
  intros Hlt. unfold StepDots. rewrite list_lookup_imap.
  destruct (lookup_lt_is_Some_2 STEPS idx Hlt) as [st ->]. reflexivity.
Qed.

(** [STEPS[stepIndex].key] is defined at every valid index. *)
Lemma step_key_valid (i : Z) : valid_index i -> is_Some (step_key i).
Proof.
  unfold valid_index, STEPS_length, step_key. intros Hi.
  destruct (Z.ltb_spec i 0) as [Hn|_]; [lia|].
  destruct (lookup_lt_is_Some_2 STEPS (Z.to_nat i)) as [st Hst]; [lia|].
  rewrite Hst. by eexists.
Qed.

Lemma onInterval_valid (i : Z) :
  valid_index i -> valid_index (setStepIndex onInterval i).
Proof.
  unfold valid_index. rewrite STEPS_length_eq. simpl. intros Hi.
  rewrite STEPS_length_eq.
  rewrite Z.rem_mod_nonneg by lia.
  pose proof (Z.mod_pos_bound (i + 1) 6). lia.
Qed.

Lemma dispatch_valid (e : event) (s : app) :
  valid_index (stepIndex s) -> valid_index (stepIndex (dispatch e s)).
Proof.
  intros Hs. destruct e; simpl.
  - destruct (anteriorDisabled _); simpl; [done|].
    unfold valid_index in *. lia.
  - destruct (siguienteDisabled _); simpl; [done|].
    unfold valid_index in *. lia.
  - unfold valid_index. rewrite STEPS_length_eq. lia.
  - done.
  - destruct (StepDots !! idx) as [h|] eqn:E; [|done].
    apply StepDots_lookup in E as [-> Hv]. done.
  - destruct (autoPlay s); [|done].
    apply (onInterval_valid _ Hs).
Qed.

Lemma run_valid (es : list event) (s : app) :
  valid_index (stepIndex s) -> valid_index (stepIndex (run es s)).
Proof.
  revert s. induction es as [|e es IH]; intros s Hs; simpl; [done|].
  apply IH, dispatch_valid, Hs.
Qed.

(** C6. Manual navigation clamps and never wraps: "Anterior" at index 0
    leaves the index at 0 and "Siguiente" at the last index leaves it there,
    both for the click handler alone and for the click on the (then disabled)
    button; the interval callback of the automatic demo at the last index
    wraps to 0, being an increment modulo the number of stages; and every
    event of the page keeps a valid index valid, also along any sequence of
    events. *)
Theorem navigation_clamps_and_auto_wraps :
  setStepIndex onAnterior 0 = 0 /\
  setStepIndex onSiguiente (STEPS_length - 1) = STEPS_length - 1 /\
  setStepIndex onInterval (STEPS_length - 1) = 0 /\
  (forall s, stepIndex s = 0 -> stepIndex (dispatch ClickAnterior s) = 0) /\
  (forall s, stepIndex s = STEPS_length - 1 ->
     stepIndex (dispatch ClickSiguiente s) = STEPS_length - 1) /\
  (forall s, autoPlay s = true -> stepIndex s = STEPS_length - 1 ->
     stepIndex (dispatch IntervalFires s) = 0) /\
  (forall i, valid_index i ->
     setStepIndex onAnterior i = Z.max 0 (i - 1) /\
     setStepIndex onSiguiente i = Z.min (STEPS_length - 1) (i + 1) /\
     setStepIndex onInterval i = (i + 1) mod STEPS_length) /\
  (forall es s, valid_index (stepIndex s) ->
     valid_index (stepIndex (run es s))).
Proof.
  repeat split.
  - intros s H0. simpl. unfold anteriorDisabled. rewrite H0. simpl. exact H0.
  - intros s Hl. simpl. unfold siguienteDisabled. rewrite Hl.
    rewrite Z.eqb_refl. exact Hl.
  - intros s Ha Hl. simpl. rewrite Ha, Hl. reflexivity.
  - simpl. unfold valid_index in H. rewrite Z.rem_mod_nonneg; [done|lia|].
    rewrite STEPS_length_eq. lia.
  - apply run_valid. assumption.
  - apply run_valid. assumption.
Qed.

Lemma navigation_clamps_and_auto_wraps_witness :
  valid_index (stepIndex initial) /\
  valid_index
    (stepIndex
       (run [ClickSiguiente; ClickSiguiente; ClickSiguiente; ClickSiguiente;
             IntervalFires; ClickAnterior; ClickDot 4] initial)).
Proof.
  assert (Hi : valid_index (stepIndex initial)).
  { unfold valid_index. rewrite STEPS_length_eq. simpl. lia. }
  split; [exact Hi|].
  destruct navigation_clamps_and_auto_wraps as (_ & _ & _ & _ & _ & _ & _ & H).
  apply H, Hi.
Defined.

(** C7, as the claim states it, fails: the setter takes the index 7, which is
    outside the six stages, raises nothing and changes the index. *)
Lemma jump_out_of_range_is_not_rejected :
  ~ (forall idx i : Z, ~ valid_index idx -> setStepIndex (Value idx) i = i).
Proof.
  intros H. specialize (H 7 0). simpl in H.
  assert (Hn : ~ valid_index 7).
  { unfold valid_index. rewrite STEPS_length_eq. lia. }
  specialize (H Hn). discriminate.
Qed.

(** C7, amended. A jump is a click on one of the dots; there is one dot per
    stage, the dot at position [idx] sets the index to [idx], which is a
    valid index, and "Reiniciar" sets it to 0.  No jump fails, and no jump
    with an index outside the stages can be issued from the page. *)
Theorem jump_requests_are_in_range :
  length StepDots = length STEPS /\
  (forall (idx : nat) (s : app),
     (idx < length STEPS)%nat ->
     valid_index (Z.of_nat idx) /\
     stepIndex (dispatch (ClickDot idx) s) = Z.of_nat idx /\
     autoPlay (dispatch (ClickDot idx) s) = autoPlay s) /\
  (forall s, stepIndex (dispatch ClickReiniciar s) = 0).
Proof.
  split; [apply StepDots_length|]. split; [|reflexivity].
  intros idx s Hlt. simpl. rewrite (StepDots_lookup_lt idx Hlt). simpl.
  split; [|done]. unfold valid_index, STEPS_length. lia.
Qed.

Lemma jump_requests_are_in_range_witness :
  stepIndex (dispatch (ClickDot 5) initial) = 5.
Proof.
  apply (proj1 (proj2 jump_requests_are_in_range) 5%nat initial).
  simpl. lia.
Defined.

End StageFacts.

(** ** Smoothing of the water levels *)

Section ApproachFacts.

Import Num.
Open Scope R_scope.

Lemma clamp01_id (v : R) : 0 <= v <= 1 -> clamp01 v = v.
Proof.
  intros [H0 H1]. unfold clamp01.
  rewrite (Rmin_right 1 v) by lra. apply Rmax_right. lra.
Qed.

Lemma clamp01_range (v : R) : 0 <= clamp01 v <= 1.
Proof.
  unfold clamp01. split; [apply Rmax_l|].
  apply Rmax_lub; [lra|apply Rmin_l].
Qed.

Lemma Math_pow_pos (b d : R) : 0 < Math_pow b d.
Proof. unfold Math_pow, Rpower. apply exp_pos. Qed.

Lemma Math_pow_zero (b : R) : 0 < b -> Math_pow b 0 = 1.
Proof. intros Hb. unfold Math_pow. apply Rpower_O, Hb. Qed.

Lemma ln_neg (b : R) : 0 < b < 1 -> ln b < 0.
Proof.
  intros [H0 H1]. rewrite <- ln_1. apply ln_increasing; assumption.
Qed.

Lemma Math_pow_lt_1 (b d : R) : 0 < b < 1 -> 0 < d -> Math_pow b d < 1.
Proof.
  intros Hb Hd. unfold Math_pow, Rpower. rewrite <- exp_0.
  apply exp_increasing. pose proof (ln_neg b Hb). nra.
Qed.

Lemma Math_pow_gt_1 (b d : R) : 0 < b < 1 -> d < 0 -> 1 < Math_pow b d.
Proof.
  intros Hb Hd. unfold Math_pow, Rpower. rewrite <- exp_0.
  apply exp_increasing. pose proof (ln_neg b Hb). nra.
Qed.

Lemma Math_pow_half (b d : R) :
  Math_pow b (d / 2) * Math_pow b (d / 2) = Math_pow b d.
Proof.
  unfold Math_pow. rewrite <- Rpower_plus. f_equal. lra.
Qed.

(** The step as a weighted mean of the old value and the target. *)
Lemma approach_mean (rate cur target delta : R) :
  approach rate cur target delta =
  Math_pow rate delta * cur + (1 - Math_pow rate delta) * target.
Proof. unfold approach. ring. Qed.

Lemma approach_between (rate cur target delta : R) :
  0 < rate < 1 -> 0 < delta ->
  Rmin cur target <= approach rate cur target delta <= Rmax cur target.
Proof.
  intros Hr Hd. rewrite approach_mean.
  pose proof (Math_pow_pos rate delta) as Hp.
  pose proof (Math_pow_lt_1 rate delta Hr Hd) as Hl.
  set (a := Math_pow rate delta) in *.
  unfold Rmin, Rmax. destruct (Rle_dec cur target); split; nra.
Qed.

Lemma approach_halves (rate cur target delta : R) :
  approach rate (approach rate cur target (delta / 2)) target (delta / 2) =
  approach rate cur target delta.
Proof.
  rewrite !approach_mean. rewrite <- (Math_pow_half rate delta). ring.
Qed.

Lemma approach_zero (rate cur target : R) :
  0 < rate -> approach rate cur target 0 = cur.
Proof.
  intros Hr. unfold approach. rewrite Math_pow_zero by exact Hr. ring.
Qed.

Lemma Math_pow_milli_minus_one : Math_pow 0.001 (-1) = 1000.
Proof.
  unfold Math_pow. replace (-1) with (- (1)) by lra.
  rewrite Rpower_Ropp, Rpower_1 by lra. lra.
Qed.

(** C3. One step of the water-level update with a decay base in (0,1) and a
    positive frame delta lands between the old value and the target, so it
    never passes the target; in particular both water meshes of the model,
    whose base is 0.001, stay between their old [scale.y] and the target of
    the stage. *)
Theorem approach_never_overshoots (rate cur target delta : R) :
  0 < rate < 1 -> 0 < delta ->
  Rmin cur target <= approach rate cur target delta <= Rmax cur target /\
  (forall step fluidFlow tempCondensation s,
     AwgModel.dirtyWaterRef s = Some cur ->
     exists v,
       AwgModel.dirtyWaterRef
         (AwgModel.useFrame step fluidFlow tempCondensation delta s) = Some v /\
       Rmin cur (AwgModel.dirty_target step) <= v
         <= Rmax cur (AwgModel.dirty_target step)) /\
  (forall step fluidFlow tempCondensation s,
     AwgModel.cleanWaterRef s = Some cur ->
     exists v,
       AwgModel.cleanWaterRef
         (AwgModel.useFrame step fluidFlow tempCondensation delta s) = Some v /\
       Rmin cur (AwgModel.clean_target step) <= v
         <= Rmax cur (AwgModel.clean_target step)).
Proof.
  intros Hr Hd. split; [apply approach_between; assumption|].
  split; intros step ff tc s Hs; simpl; rewrite Hs;
    eexists; (split; [reflexivity|]); apply approach_between; (lra || assumption).
Qed.

Lemma approach_never_overshoots_witness :
  Rmin 0.22 0.15 <= approach 0.001 0.22 0.15 0.016 <= Rmax 0.22 0.15.
Proof.
  apply (approach_never_overshoots 0.001 0.22 0.15 0.016); lra.
Defined.

(** C4. One step of size [delta] gives exactly the value of two successive
    steps of size [delta / 2] towards the same target (for every [delta],
    positive or not); the same holds for the whole frame callback of the
    model at a fixed stage and fixed sliders. *)
Theorem approach_frame_rate_independent (rate cur target delta : R) :
  approach rate (approach rate cur target (delta / 2)) target (delta / 2) =
  approach rate cur target delta /\
  (forall step fluidFlow tempCondensation s,
     AwgModel.useFrame step fluidFlow tempCondensation (delta / 2)
       (AwgModel.useFrame step fluidFlow tempCondensation (delta / 2) s) =
     AwgModel.useFrame step fluidFlow tempCondensation delta s).
Proof.
  split; [apply approach_halves|].
  intros step ff tc [fan cg ci uvr ui dw cw]. unfold AwgModel.useFrame. simpl.
  f_equal.
  - destruct fan; [|reflexivity]. f_equal. lra.
  - destruct cg; reflexivity.
  - destruct uvr; reflexivity.
  - destruct dw; [|reflexivity]. f_equal. apply approach_halves.
  - destruct cw; [|reflexivity]. f_equal. apply approach_halves.
Qed.

(** C9, as the claim states it, fails: with frame delta [-1], old value 0 and
    target 1 the update gives [0 + 1 * (1 - 1000) = -999], not 0. *)
Lemma approach_negative_delta_is_not_a_noop :
  (-1 <= 0) /\ approach 0.001 0 1 (-1) = -999 /\ approach 0.001 0 1 (-1) <> 0.
Proof.
  assert (H : approach 0.001 0 1 (-1) = -999).
  { unfold approach. rewrite Math_pow_milli_minus_one. lra. }
  split; [lra|]. split; [exact H|]. rewrite H. lra.
Qed.

(** C9, amended. With frame delta 0 the update leaves the value unchanged,
    in the helper and in both water meshes of the model.  Nothing guards a
    negative frame delta: the same formula runs, and whenever the value
    differs from the target it moves the value away from the target. *)
Theorem approach_zero_delta_is_a_noop (rate cur target : R) :
  0 < rate < 1 ->
  approach rate cur target 0 = cur /\
  (forall step fluidFlow tempCondensation s,
     AwgModel.dirtyWaterRef
       (AwgModel.useFrame step fluidFlow tempCondensation 0 s)
       = AwgModel.dirtyWaterRef s /\
     AwgModel.cleanWaterRef
       (AwgModel.useFrame step fluidFlow tempCondensation 0 s)
       = AwgModel.cleanWaterRef s) /\
  (forall delta, delta < 0 -> cur <> target ->
     approach rate cur target delta <> cur /\
     Rabs (target - cur) < Rabs (target - approach rate cur target delta)).
Proof.
  intros Hr. split; [apply approach_zero; lra|]. split.
  - intros step ff tc s. simpl.
    destruct (AwgModel.dirtyWaterRef s), (AwgModel.cleanWaterRef s);
      rewrite ?approach_zero by lra; done.
  - intros delta Hd Hne.
    pose proof (Math_pow_gt_1 rate delta Hr Hd) as Hg.
    assert (Hd' : target - approach rate cur target delta
                  = Math_pow rate delta * (target - cur)).
    { unfold approach. ring. }
    split.
    + intros Heq. rewrite Heq in Hd'. nra.
    + rewrite Hd', Rabs_mult.
      rewrite (Rabs_right (Math_pow rate delta)) by lra.
      assert (0 < Rabs (target - cur)) by (apply Rabs_pos_lt; lra).
      nra.
Qed.

Lemma approach_zero_delta_is_a_noop_witness :
  approach 0.001 0.22 0.15 0 = 0.22.
Proof.
  apply (approach_zero_delta_is_a_noop 0.001 0.22 0.15). lra.
Defined.

End ApproachFacts.

(** ** Fan and coil of the model *)

Section ModelFacts.

Import Num.
Open Scope string_scope.
Open Scope R_scope.

Lemma fan_mult_air : AwgModel.fan_mult "air" = 1.
Proof. unfold AwgModel.fan_mult. simpl. lra. Qed.

Lemma fan_mult_other (step : string) :
  step <> "air" -> AwgModel.fan_mult step = 0.20.
Proof.
  intros Hne. unfold AwgModel.fan_mult.
  destruct (String.eqb_spec step "air"); [contradiction|reflexivity].
Qed.

Lemma coil_glow_other (step : string) (cond : R) :
  step <> "condensation" -> AwgModel.coil_glow step cond = 0.08.
Proof.
  intros Hne. unfold AwgModel.coil_glow.
  destruct (String.eqb_spec step "condensation"); [contradiction|reflexivity].
Qed.

Lemma glb_coil_glow_other (step : string) (cond : R) :
  step <> "condensation" -> AwgGLB.coil_glow step cond = 0.08.
Proof.
  intros Hne. unfold AwgGLB.coil_glow.
  destruct (String.eqb_spec step "condensation"); [contradiction|reflexivity].
Qed.

(** C2, as the claim states it, fails on [AwgModel]: on the stage
    "condensation" with the condensation slider at 0.58 the coil glows with
    [0.25 + 0.58 * 0.85 = 0.743] after the frame, not with
    [0.25 + 0.58 * 0.9 = 0.772]. *)
Lemma coil_glow_is_not_0_772 :
  AwgModel.coilMat_emissiveIntensity
    (AwgModel.useFrame "condensation" 0.62 0.58 0.016 AwgModel.mounted)
    = 0.743 /\
  AwgModel.coilMat_emissiveIntensity
    (AwgModel.useFrame "condensation" 0.62 0.58 0.016 AwgModel.mounted)
    <> 0.25 + 0.58 * 0.9.
Proof.
  assert (H : AwgModel.coilMat_emissiveIntensity
                (AwgModel.useFrame "condensation" 0.62 0.58 0.016
                   AwgModel.mounted) = 0.743).
  { simpl. unfold AwgModel.coil_glow. simpl.
    rewrite clamp01_id by lra. lra. }
  split; [exact H|]. rewrite H. lra.
Qed.

(** C2, amended. With the coil group mounted, the glow of the coil after a
    frame of [AwgModel] does not depend on the glow before it: on the stage
    "condensation" it is [0.25 + cond * 0.85], where [cond] is the slider
    clamped to [0,1] (0.743 for 0.58), and on any other stage it is 0.08,
    which lies in [0.05, 0.12].  The factor 0.9 (0.772 for 0.58) is the one
    of the GLB variant of the model, whose idle value is 0.08 as well. *)
Theorem coil_glow_snaps_to_stage_value
    (step : string) (fluidFlow tempCondensation delta : R)
    (s : AwgModel.scene) :
  AwgModel.coilGlowRef s = true ->
  let glow :=
    AwgModel.coilMat_emissiveIntensity
      (AwgModel.useFrame step fluidFlow tempCondensation delta s) in
  (step = "condensation" -> glow = 0.25 + clamp01 tempCondensation * 0.85) /\
  (step = "condensation" -> tempCondensation = 0.58 -> glow = 0.743) /\
  (step <> "condensation" -> glow = 0.08 /\ 0.05 <= glow <= 0.12) /\
  (forall g : AwgGLB.scene,
     is_Some (AwgGLB.coil g) ->
     let glow' := AwgGLB.coil
       (AwgGLB.useFrame step fluidFlow tempCondensation delta g) in
     (step = "condensation" ->
        glow' = Some (0.25 + 0.9 * clamp01 tempCondensation)) /\
     (step = "condensation" -> tempCondensation = 0.58 ->
        glow' = Some 0.772) /\
     (step <> "condensation" -> glow' = Some 0.08)).
Proof.
  intros Hm. simpl. rewrite Hm. repeat split.
  - intros ->. reflexivity.
  - intros -> ->. unfold AwgModel.coil_glow. simpl.
    rewrite clamp01_id by lra. lra.
  - rewrite coil_glow_other by assumption. reflexivity.
  - rewrite coil_glow_other by assumption. lra.
  - rewrite coil_glow_other by assumption. lra.
  - intros ->. destruct H as [c ->]. reflexivity.
  - intros -> ->. destruct H as [c ->]. unfold AwgGLB.coil_glow. simpl.
    rewrite clamp01_id by lra. f_equal. lra.
  - intros Hne. destruct H as [c ->].
    rewrite glb_coil_glow_other by assumption. reflexivity.
Qed.

Lemma coil_glow_snaps_to_stage_value_witness :
  AwgModel.coilMat_emissiveIntensity
    (AwgModel.useFrame "condensation" 0.62 0.58 0.016 AwgModel.mounted)
  = 0.25 + clamp01 0.58 * 0.85.
Proof.
  apply (coil_glow_snaps_to_stage_value
           "condensation" 0.62 0.58 0.016 AwgModel.mounted);
    reflexivity.
Defined.

(** C8. With the fan mounted and the flow slider in [0,1], a frame turns the
    fan by [rate * delta] with [rate = (1.2 + flow * 10) * m], where [m] is 1
    on the stage "air" and otherwise a value in [0.15, 0.25] (it is 0.20);
    [m] is never 0, and on "air" with flow 0.62 the rate is 7.4. *)
Theorem fan_rate_by_stage
    (step : string) (fluidFlow tempCondensation delta rz : R)
    (s : AwgModel.scene) :
  0 <= fluidFlow <= 1 ->
  AwgModel.fanRef s = Some rz ->
  exists m : R,
    AwgModel.fanRef
      (AwgModel.useFrame step fluidFlow tempCondensation delta s)
      = Some (rz + (1.2 + fluidFlow * 10) * m * delta) /\
    (step = "air" -> m = 1.0) /\
    (step <> "air" -> 0.15 <= m <= 0.25) /\
    m <> 0 /\
    (step = "air" -> fluidFlow = 0.62 -> (1.2 + fluidFlow * 10) * m = 7.4).
Proof.
  intros Hf Hs. exists (AwgModel.fan_mult step).
  split; [|repeat split].
  - simpl. rewrite Hs. unfold AwgModel.fan_base.
    rewrite clamp01_id by assumption. f_equal. lra.
  - intros ->. rewrite fan_mult_air. lra.
  - rewrite fan_mult_other by assumption. lra.
  - rewrite fan_mult_other by assumption. lra.
  - unfold AwgModel.fan_mult. destruct (step =? "air")%string; lra.
  - intros -> ->. rewrite fan_mult_air. lra.
Qed.

Lemma fan_rate_by_stage_witness :
  exists m : R,
    AwgModel.fanRef (AwgModel.useFrame "air" 0.62 0.58 0.016 AwgModel.mounted)
      = Some (0 + (1.2 + 0.62 * 10) * m * 0.016) /\
    ("air" = "air" -> m = 1.0) /\
    ("air" <> "air" -> 0.15 <= m <= 0.25) /\
    m <> 0 /\
    ("air" = "air" -> 0.62 = 0.62 -> (1.2 + 0.62 * 10) * m = 7.4).
Proof.
  apply (fan_rate_by_stage "air" 0.62 0.58 0.016 0 AwgModel.mounted).
  - lra.
  - reflexivity.
Defined.

End ModelFacts.

(** ** Particle fields *)

Section ParticleFacts.

Import Num Particles.
Open Scope R_scope.

(** *** Single cells *)

Lemma get_lookup (pos : list R) (i : nat) (v : R) :
  pos !! i = Some v -> get pos i = v.
Proof. intros H. unfold get. rewrite H. reflexivity. Qed.

Lemma lookup_get (pos : list R) (i : nat) :
  (i < length pos)%nat -> pos !! i = Some (get pos i).
Proof.
  intros Hlt. destruct (lookup_lt_is_Some_2 pos i Hlt) as [v Hv].
  rewrite (get_lookup _ _ _ Hv). exact Hv.
Qed.

Lemma length_add_at pos i d : length (add_at pos i d) = length pos.
Proof. apply length_insert. Qed.

Lemma length_wrap_hi pos i h : length (wrap_hi pos i h) = length pos.
Proof. unfold wrap_hi. destruct (Rgt_dec _ _); [apply length_insert|done]. Qed.

Lemma length_wrap_lo pos i h : length (wrap_lo pos i h) = length pos.
Proof. unfold wrap_lo. destruct (Rlt_dec _ _); [apply length_insert|done]. Qed.

Lemma length_wrap_axis pos i h : length (wrap_axis pos i h) = length pos.
Proof. unfold wrap_axis. by rewrite length_wrap_lo, length_wrap_hi. Qed.





Lemma add_at_zero pos i d : d = 0 -> add_at pos i d = pos.
Proof.
  intros ->. unfold add_at.
  destruct (decide (i < length pos)%nat) as [Hlt|Hge].
  - apply list_insert_id. rewrite (lookup_get _ _ Hlt). f_equal. lra.
  - apply list_insert_ge. lia.
Qed.

Lemma get_add_at pos i d :
  (i < length pos)%nat -> get (add_at pos i d) i = get pos i + d.
Proof.
  intros Hlt. apply get_lookup. unfold add_at.
  by apply list_lookup_insert_eq.
Qed.

Lemma wrap_axis_id pos i h :
  - h <= get pos i <= h -> wrap_axis pos i h = pos.
Proof.
  intros [Hlo Hhi]. unfold wrap_axis, wrap_hi.
  destruct (Rgt_dec _ _) as [Hgt|_]; [lra|].
  unfold wrap_lo. destruct (Rlt_dec _ _) as [Hlt|_]; [lra|done].
Qed.

(** *** The loop body *)

Lemma length_advect p delta i pos : length (advect p delta i pos) = length pos.
Proof. unfold advect. by rewrite !length_add_at. Qed.

Lemma length_swirl_step p phs t i pos :
  length (swirl_step p phs t i pos) = length pos.
Proof.
  unfold swirl_step. destruct (Rgt_dec _ _); [|done].
  by rewrite !length_add_at.
Qed.

Lemma length_wrap_box p i pos : length (wrap_box p i pos) = length pos.
Proof. unfold wrap_box. by rewrite !length_wrap_axis. Qed.

Lemma length_body p phs t delta i pos :
  length (body p phs t delta i pos) = length pos.
Proof.
  unfold body. by rewrite length_wrap_box, length_swirl_step, length_advect.
Qed.


(** *** The loop *)

Lemma loop_upto_S p phs t delta n pos :
  loop_upto p phs t delta (S n) pos =
  body p phs t delta n (loop_upto p phs t delta n pos).
Proof.
  unfold loop_upto. rewrite seq_S, foldl_app. reflexivity.
Qed.

Lemma length_loop_upto p phs t delta n pos :
  length (loop_upto p phs t delta n pos) = length pos.
Proof.
  induction n as [|n IH]; [done|].
  by rewrite loop_upto_S, length_body.
Qed.


(** The fields of the model: what sits at each position of [fields]. *)
Lemma model_field_lookup step ff tc k own p :
  AwgModel.fields step ff tc !! k = Some (own, p) ->
  AwgModel.owner k = Some own /\
  active p = (step =? own)%string /\
  0 < a0 (box p) /\ 0 < a1 (box p) /\ 0 < a2 (box p) /\
  0 <= swirl p /\ swirl p * 0.02 <= a2 (box p) / 2.
Proof.
  intros Hk. unfold AwgModel.owner.
  do 6 (destruct k as [|k];
        [simpl in Hk; injection Hk as <- <-; simpl; repeat split; lra|]).
  discriminate.
Qed.

(** The model has one field per stage, in the order of [STEPS]. *)
Lemma model_owners_are_the_stages :
  omap AwgModel.owner (seq 0 (length Stage.STEPS)) = map Stage.key Stage.STEPS.
Proof. reflexivity. Qed.



End ParticleFacts.

(** * Further properties *)

(** ** Sequences of page events *)

Section NavigationFacts.

Import Stage.
Open Scope Z_scope.

Lemma app_eq (s t : app) :
  stepIndex s = stepIndex t -> autoPlay s = autoPlay t -> s = t.
Proof. destruct s, t. simpl. congruence. Qed.

Lemma run_cons (e : event) (es : list event) (s : app) :
  run (e :: es) s = run es (dispatch e s).
Proof. reflexivity. Qed.

Lemma siguiente_index (s : app) :
  valid_index (stepIndex s) ->
  stepIndex (dispatch ClickSiguiente s)
  = Z.min (STEPS_length - 1) (stepIndex s + 1).
Proof.
  unfold valid_index. rewrite STEPS_length_eq. intros Hv. simpl.
  unfold siguienteDisabled. rewrite STEPS_length_eq.
  destruct (Z.eqb_spec (stepIndex s) (6 - 1)); simpl; [lia|reflexivity].
Qed.

Lemma anterior_index (s : app) :
  stepIndex (dispatch ClickAnterior s) = Z.max 0 (stepIndex s - 1).
Proof.
  simpl. unfold anteriorDisabled.
  destruct (Z.eqb_spec (stepIndex s) 0); simpl; lia.
Qed.

Lemma interval_index (s : app) :
  autoPlay s = true -> valid_index (stepIndex s) ->
  stepIndex (dispatch IntervalFires s) = (stepIndex s + 1) mod STEPS_length /\
  autoPlay (dispatch IntervalFires s) = true.
Proof.
  unfold valid_index. intros Ha Hv. simpl. rewrite Ha. simpl.
  split; [|exact Ha]. apply Z.rem_mod_nonneg; lia.
Qed.

(** X1. While the automatic demo is on, [n] firings of the interval move a
    valid index [i] to [(i + n) mod 6]; the demo stays on, and a number of
    firings that is a multiple of the number of stages brings the page back
    to the stage it started from. *)
Theorem interval_firings_cycle (n : nat) (s : app) :
  autoPlay s = true -> valid_index (stepIndex s) ->
  stepIndex (run (replicate n IntervalFires) s)
    = (stepIndex s + Z.of_nat n) mod STEPS_length /\
  autoPlay (run (replicate n IntervalFires) s) = true /\
  (forall k : nat, n = (k * length STEPS)%nat ->
     run (replicate n IntervalFires) s = s).
Proof.
  intros Ha Hv.
  assert (Hgen : forall m t, autoPlay t = true -> valid_index (stepIndex t) ->
            stepIndex (run (replicate m IntervalFires) t)
              = (stepIndex t + Z.of_nat m) mod STEPS_length /\
            autoPlay (run (replicate m IntervalFires) t) = true).
  { induction m as [|m IH]; intros t Hat Hvt.
    - simpl. split; [|exact Hat]. unfold valid_index in Hvt.
      rewrite Z.add_0_r, Z.mod_small; lia.
    - simpl replicate. rewrite run_cons.
      destruct (interval_index t Hat Hvt) as [Hi Hp].
      destruct (IH (dispatch IntervalFires t) Hp
                  (dispatch_valid IntervalFires t Hvt)) as [Hs Hq].
      split; [|exact Hq]. rewrite Hs, Hi.
      rewrite Zplus_mod_idemp_l. f_equal. lia. }
  destruct (Hgen n s Ha Hv) as [Hs Hp].
  split; [exact Hs|]. split; [exact Hp|].
  intros k Hk.
  destruct (run (replicate n IntervalFires) s) as [i' a'] eqn:E.
  destruct s as [i a]. simpl in *. subst a a'. f_equal.
  rewrite Hs, Hk. unfold valid_index in Hv. unfold STEPS_length.
  rewrite Nat2Z.inj_mul, Z_mod_plus_full. apply Z.mod_small. exact Hv.
Qed.

Lemma interval_firings_cycle_witness :
  stepIndex (run (replicate 4 IntervalFires) initial) = (2 + 4) mod 6.
Proof.
  apply (interval_firings_cycle 4 initial).
  - reflexivity.
  - unfold valid_index. simpl. rewrite STEPS_length_eq. lia.
Defined.

(** X2. Repeated manual navigation saturates: from a valid index [i], [n]
    clicks on "Siguiente" lead to [min (last, i + n)] and [n] clicks on
    "Anterior" lead to [max (0, i - n)]; neither changes the demo flag. *)
Theorem manual_navigation_saturates (n : nat) (s : app) :
  valid_index (stepIndex s) ->
  run (replicate n ClickSiguiente) s
    = with_index s (Z.min (STEPS_length - 1) (stepIndex s + Z.of_nat n)) /\
  run (replicate n ClickAnterior) s
    = with_index s (Z.max 0 (stepIndex s - Z.of_nat n)).
Proof.
  intros Hv. split.
  - revert s Hv. induction n as [|n IH]; intros s Hv.
    + simpl. destruct s as [i a]. unfold with_index, valid_index in *.
      simpl in *. f_equal. lia.
    + simpl replicate. rewrite run_cons.
      rewrite (IH _ (dispatch_valid ClickSiguiente s Hv)).
      rewrite siguiente_index by exact Hv.
      unfold with_index. f_equal.
      * unfold valid_index in Hv. lia.
      * simpl. destruct (siguienteDisabled _); reflexivity.
  - revert s Hv. induction n as [|n IH]; intros s Hv.
    + simpl. destruct s as [i a]. unfold with_index, valid_index in *.
      simpl in *. f_equal. lia.
    + simpl replicate. rewrite run_cons.
      rewrite (IH _ (dispatch_valid ClickAnterior s Hv)).
      rewrite anterior_index.
      unfold with_index. f_equal.
      * unfold valid_index in Hv. lia.
      * simpl. destruct (anteriorDisabled _); reflexivity.
Qed.

Lemma manual_navigation_saturates_witness :
  run (replicate 9 ClickSiguiente) initial = with_index initial 5.
Proof.
  apply (manual_navigation_saturates 9 initial).
  unfold valid_index. simpl. rewrite STEPS_length_eq. lia.
Defined.

(** X3. "Siguiente" and "Anterior" undo each other away from the ends: at a
    valid index other than the last, "Siguiente" then "Anterior" restores the
    state, and at a valid index other than 0 so does "Anterior" then
    "Siguiente".  At the ends they do not: the pair moves the page one stage
    inwards. *)
Theorem siguiente_anterior_round_trip (s : app) :
  valid_index (stepIndex s) ->
  (stepIndex s <> STEPS_length - 1 ->
     dispatch ClickAnterior (dispatch ClickSiguiente s) = s) /\
  (stepIndex s <> 0 ->
     dispatch ClickSiguiente (dispatch ClickAnterior s) = s) /\
  (stepIndex s = STEPS_length - 1 ->
     stepIndex (dispatch ClickAnterior (dispatch ClickSiguiente s))
       = STEPS_length - 2) /\
  (stepIndex s = 0 ->
     stepIndex (dispatch ClickSiguiente (dispatch ClickAnterior s)) = 1).
Proof.
  intros Hv. pose proof Hv as Hv'. unfold valid_index in Hv'.
  rewrite STEPS_length_eq in *.
  assert (Hn := siguiente_index s Hv).
  assert (Hp := anterior_index s).
  assert (Hvn := dispatch_valid ClickSiguiente s Hv).
  assert (Hvp := dispatch_valid ClickAnterior s Hv).
  assert (Hpn := anterior_index (dispatch ClickSiguiente s)).
  assert (Hnp := siguiente_index (dispatch ClickAnterior s) Hvp).
  rewrite STEPS_length_eq in *.
  assert (Ha : forall e t, e = ClickAnterior \/ e = ClickSiguiente ->
                 autoPlay (dispatch e t) = autoPlay t).
  { intros e t [-> | ->]; simpl;
      [destruct (anteriorDisabled _)|destruct (siguienteDisabled _)];
      reflexivity. }
  repeat split.
  - intros Hne. apply app_eq.
    + rewrite Hpn, Hn. lia.
    + rewrite !Ha by auto. reflexivity.
  - intros Hne. apply app_eq.
    + rewrite Hnp, Hp. lia.
    + rewrite !Ha by auto. reflexivity.
  - intros He. rewrite Hpn, Hn. lia.
  - intros He. rewrite Hnp, Hp. lia.
Qed.

Lemma siguiente_anterior_round_trip_witness :
  dispatch ClickAnterior (dispatch ClickSiguiente initial) = initial.
Proof.
  apply (siguiente_anterior_round_trip initial).
  - unfold valid_index. simpl. rewrite STEPS_length_eq. lia.
  - simpl. lia.
Defined.

(** X4. The [disabled] attribute hides nothing: at a valid index a button is
    disabled exactly when its click handler would leave the index where it
    is, so a click on the button acts as the bare handler in every case. *)
Theorem disabled_buttons_are_the_idle_ones (s : app) :
  valid_index (stepIndex s) ->
  (anteriorDisabled (stepIndex s) = true <->
     setStepIndex onAnterior (stepIndex s) = stepIndex s) /\
  (siguienteDisabled (stepIndex s) = true <->
     setStepIndex onSiguiente (stepIndex s) = stepIndex s) /\
  dispatch ClickAnterior s
    = with_index s (setStepIndex onAnterior (stepIndex s)) /\
  dispatch ClickSiguiente s
    = with_index s (setStepIndex onSiguiente (stepIndex s)).
Proof.
  unfold valid_index. rewrite STEPS_length_eq. intros Hv.
  unfold anteriorDisabled, siguienteDisabled. rewrite STEPS_length_eq.
  simpl. unfold anteriorDisabled, siguienteDisabled.
  rewrite STEPS_length_eq.
  destruct (Z.eqb_spec (stepIndex s) 0) as [H0|H0];
    destruct (Z.eqb_spec (stepIndex s) (6 - 1)) as [H5|H5];
    destruct s as [i a]; unfold with_index; simpl in *;
    repeat split; intros; try lia; try discriminate; try (f_equal; lia).
Qed.

Lemma disabled_buttons_are_the_idle_ones_witness :
  dispatch ClickSiguiente (with_index initial 5)
  = with_index (with_index initial 5)
      (setStepIndex onSiguiente (stepIndex (with_index initial 5))).
Proof.
  apply (disabled_buttons_are_the_idle_ones (with_index initial 5)).
  unfold valid_index. simpl. rewrite STEPS_length_eq. lia.
Defined.

(** X5. Whatever is clicked and however often the interval fires, the page
    never looks up a stage that does not exist: after any sequence of events
    from the initial state the stage key passed to the model and the title
    shown in the header are defined, and exactly one dot is highlighted,
    the one of the current stage. *)
Theorem page_always_shows_a_stage (es : list event) :
  let i := stepIndex (run es initial) in
  is_Some (step_key i) /\
  is_Some (Page.header_title i) /\
  (forall idx : nat,
     Page.dot_selected i !! idx = Some true <-> Z.of_nat idx = i) /\
  length (filter (fun b => b = true) (Page.dot_selected i)) = 1%nat.
Proof.
  intros i.
  assert (Hv : valid_index i).
  { apply run_valid. unfold valid_index. simpl. rewrite STEPS_length_eq. lia. }
  pose proof Hv as Hv'. unfold valid_index in Hv'.
  rewrite STEPS_length_eq in Hv'.
  split; [apply step_key_valid, Hv|]. split.
  { unfold Page.header_title.
    destruct (Z.ltb_spec i 0) as [Hn|_]; [lia|].
    destruct (lookup_lt_is_Some_2 STEPS (Z.to_nat i)) as [st Hst];
      [simpl; lia|].
    rewrite Hst. by eexists. }
  split.
  - intros idx. unfold Page.dot_selected. rewrite list_lookup_imap.
    split.
    + destruct (STEPS !! idx); simpl; [|discriminate].
      intros [= H]. by apply Z.eqb_eq.
    + intros Hi.
      destruct (lookup_lt_is_Some_2 STEPS idx) as [st Hst]; [simpl; lia|].
      rewrite Hst. simpl. f_equal. by apply Z.eqb_eq.
  - assert (Hc : i = 0 \/ i = 1 \/ i = 2 \/ i = 3 \/ i = 4 \/ i = 5) by lia.
    destruct Hc as [-> | [-> | [-> | [-> | [-> | ->]]]]]; reflexivity.
Qed.

Lemma page_always_shows_a_stage_witness :
  Page.dot_selected
    (stepIndex (run [ClickDot 3; IntervalFires; ClickAnterior] initial))
    !! 3%nat = Some true.
Proof.
  apply (proj1 (proj2 (proj2
           (page_always_shows_a_stage
              [ClickDot 3; IntervalFires; ClickAnterior])))).
  reflexivity.
Defined.

End NavigationFacts.

(** ** Runs of the model's frame callback *)

Section ModelRunFacts.

Import Num ModelRun.
Open Scope string_scope.
Open Scope R_scope.

Lemma approach_add (rate cur target d1 d2 : R) :
  approach rate (approach rate cur target d1) target d2 =
  approach rate cur target (d1 + d2).
Proof.
  rewrite !approach_mean. unfold Math_pow. rewrite Rpower_plus. ring.
Qed.

Lemma useFrame_add (step : string) (ff tc d1 d2 : R) (s : AwgModel.scene) :
  AwgModel.useFrame step ff tc d2 (AwgModel.useFrame step ff tc d1 s) =
  AwgModel.useFrame step ff tc (d1 + d2) s.
Proof.
  destruct s as [fan cg ci uvr ui dw cw]. unfold AwgModel.useFrame. simpl.
  f_equal.
  - destruct fan; [|reflexivity]. f_equal. lra.
  - destruct cg; reflexivity.
  - destruct uvr; reflexivity.
  - destruct dw; [|reflexivity]. f_equal. apply approach_add.
  - destruct cw; [|reflexivity]. f_equal. apply approach_add.
Qed.

Lemma steady_frames_sum (step : string) (ff tc d : R) (ds : list R)
    (s : AwgModel.scene) :
  steady_frames step ff tc (d :: ds) s =
  AwgModel.useFrame step ff tc (elapsed (d :: ds)) s.
Proof.
  revert d s. induction ds as [|d' ds IH]; intros d s.
  - simpl. unfold elapsed. simpl. f_equal. lra.
  - change (steady_frames step ff tc (d :: d' :: ds) s)
      with (steady_frames step ff tc (d' :: ds)
              (AwgModel.useFrame step ff tc d s)).
    rewrite IH, useFrame_add. f_equal.
Qed.

(** X6. At a fixed stage and fixed sliders only the elapsed time counts: any
    non-empty sequence of frames leaves the scene exactly as one frame whose
    delta is the sum of theirs.  For a mounted water mesh this gives the
    closed form [target + (level - target) * 0.001 ^ elapsed]: after one
    second a thousandth of the gap is left, however the second was cut into
    frames. *)
Theorem frames_depend_on_elapsed_time_only
    (step : string) (fluidFlow tempCondensation : R) (deltas : list R)
    (s : AwgModel.scene) :
  deltas <> [] ->
  steady_frames step fluidFlow tempCondensation deltas s
    = AwgModel.useFrame step fluidFlow tempCondensation (elapsed deltas) s /\
  (forall v, AwgModel.dirtyWaterRef s = Some v ->
     AwgModel.dirtyWaterRef
       (steady_frames step fluidFlow tempCondensation deltas s)
     = Some (AwgModel.dirty_target step
             + (v - AwgModel.dirty_target step)
               * Math_pow 0.001 (elapsed deltas))) /\
  (forall v, AwgModel.cleanWaterRef s = Some v ->
     AwgModel.cleanWaterRef
       (steady_frames step fluidFlow tempCondensation deltas s)
     = Some (AwgModel.clean_target step
             + (v - AwgModel.clean_target step)
               * Math_pow 0.001 (elapsed deltas))) /\
  (elapsed deltas = 1 ->
   forall v, AwgModel.dirtyWaterRef s = Some v ->
     AwgModel.dirtyWaterRef
       (steady_frames step fluidFlow tempCondensation deltas s)
     = Some (AwgModel.dirty_target step
             + (v - AwgModel.dirty_target step) * 0.001)).
Proof.
  intros Hne. destruct deltas as [|d ds]; [contradiction|].
  rewrite steady_frames_sum. split; [reflexivity|].
  split; [|split].
  - intros v Hv. simpl. rewrite Hv. f_equal. unfold approach. ring.
  - intros v Hv. simpl. rewrite Hv. f_equal. unfold approach. ring.
  - intros He v Hv. rewrite He. simpl. rewrite Hv. f_equal.
    unfold approach, Math_pow.
    rewrite Rpower_1 by lra. ring.
Qed.

Lemma frames_depend_on_elapsed_time_only_witness :
  steady_frames "dispense" 0.62 0.58 [0.016; 0.033; 0.008] AwgModel.mounted
  = AwgModel.useFrame "dispense" 0.62 0.58
      (elapsed [0.016; 0.033; 0.008]) AwgModel.mounted.
Proof.
  apply (frames_depend_on_elapsed_time_only
           "dispense" 0.62 0.58 [0.016; 0.033; 0.008] AwgModel.mounted).
  discriminate.
Defined.

Lemma approach_in_interval (cur target delta lo hi : R) :
  0 <= delta -> lo <= cur <= hi -> lo <= target <= hi ->
  lo <= approach 0.001 cur target delta <= hi.
Proof.
  intros Hd Hc Ht. destruct Hd as [Hd|<-].
  - pose proof (approach_between 0.001 cur target delta) as Hb.
    destruct Hb as [Hl Hu]; [lra|exact Hd|].
    unfold Rmin in Hl. unfold Rmax in Hu.
    destruct (Rle_dec cur target); lra.
  - rewrite approach_zero by lra. exact Hc.
Qed.

Lemma dirty_target_band (step : string) :
  0.15 <= AwgModel.dirty_target step <= 0.22.
Proof. unfold AwgModel.dirty_target. destruct (_ || _); lra. Qed.

Lemma clean_target_band (step : string) :
  0.25 <= AwgModel.clean_target step <= 0.33.
Proof. unfold AwgModel.clean_target. destruct (_ || _ || _); lra. Qed.

(** X7. The water levels never leave their bands.  From the scene as first
    rendered, after any sequence of frames with non-negative deltas (the
    stage and the sliders may change from frame to frame) the dirty-water
    mesh has [scale.y] in [0.15, 0.22] and the clean-water mesh in
    [0.25, 0.33]; so the clean level is always above the dirty one. *)
Theorem water_levels_stay_in_band (ins : list AwgModel.frame_input) :
  Forall (fun i => 0 <= AwgModel.in_delta i) ins ->
  exists d c : R,
    AwgModel.dirtyWaterRef (scene_frames ins AwgModel.mounted) = Some d /\
    AwgModel.cleanWaterRef (scene_frames ins AwgModel.mounted) = Some c /\
    0.15 <= d <= 0.22 /\ 0.25 <= c <= 0.33 /\ d < c.
Proof.
  intros Hall.
  assert (Hgen : forall s d c,
            AwgModel.dirtyWaterRef s = Some d ->
            AwgModel.cleanWaterRef s = Some c ->
            0.15 <= d <= 0.22 -> 0.25 <= c <= 0.33 ->
            exists d' c',
              AwgModel.dirtyWaterRef (scene_frames ins s) = Some d' /\
              AwgModel.cleanWaterRef (scene_frames ins s) = Some c' /\
              0.15 <= d' <= 0.22 /\ 0.25 <= c' <= 0.33).
  { induction Hall as [|i ins Hi _ IH]; intros s d c Hd Hc Hbd Hbc.
    - exists d, c. auto.
    - change (scene_frames (i :: ins) s)
        with (scene_frames ins (scene_frame i s)).
      eapply IH.
      + unfold scene_frame. simpl. rewrite Hd. reflexivity.
      + unfold scene_frame. simpl. rewrite Hc. reflexivity.
      + apply approach_in_interval;
          [exact Hi|exact Hbd|apply dirty_target_band].
      + apply approach_in_interval;
          [exact Hi|exact Hbc|apply clean_target_band]. }
  destruct (Hgen AwgModel.mounted 0.22 0.25) as (d & c & Hd & Hc & Hbd & Hbc);
    try reflexivity; try lra.
  exists d, c. repeat split; try assumption; lra.
Qed.

Lemma water_levels_stay_in_band_witness :
  exists d c : R,
    AwgModel.dirtyWaterRef
      (scene_frames
         [ {| AwgModel.in_step := "filtration"; AwgModel.in_fluidFlow := 0.62;
              AwgModel.in_tempCondensation := 0.58;
              AwgModel.in_elapsed := 1; AwgModel.in_delta := 0.016 |};
           {| AwgModel.in_step := "dispense"; AwgModel.in_fluidFlow := 0.1;
              AwgModel.in_tempCondensation := 0.9;
              AwgModel.in_elapsed := 2; AwgModel.in_delta := 0 |} ]
         AwgModel.mounted) = Some d /\
    AwgModel.cleanWaterRef
      (scene_frames
         [ {| AwgModel.in_step := "filtration"; AwgModel.in_fluidFlow := 0.62;
              AwgModel.in_tempCondensation := 0.58;
              AwgModel.in_elapsed := 1; AwgModel.in_delta := 0.016 |};
           {| AwgModel.in_step := "dispense"; AwgModel.in_fluidFlow := 0.1;
              AwgModel.in_tempCondensation := 0.9;
              AwgModel.in_elapsed := 2; AwgModel.in_delta := 0 |} ]
         AwgModel.mounted) = Some c /\
    0.15 <= d <= 0.22 /\ 0.25 <= c <= 0.33 /\ d < c.
Proof.
  apply water_levels_stay_in_band.
  repeat constructor; simpl; lra.
Defined.

Lemma clamp01_mono (u v : R) : u <= v -> clamp01 u <= clamp01 v.
Proof.
  intros Huv. unfold clamp01.
  apply Rle_max_compat_l, Rle_min_compat_l, Huv.
Qed.

(** X8. The sliders are clamped before use, so no slider value, inside
    [0,1] or not, can push the glows out of range: after a frame with the
    coil group and the UV mesh mounted the coil glow lies in [0.08, 1.10] and
    the UV glow in [0.12, 1.50]; and a larger slider value never gives a
    smaller glow. *)
Theorem glows_are_bounded
    (step : string) (fluidFlow tempCondensation delta : R)
    (s : AwgModel.scene) :
  AwgModel.coilGlowRef s = true -> AwgModel.uvRef s = true ->
  let s' := AwgModel.useFrame step fluidFlow tempCondensation delta s in
  0.08 <= AwgModel.coilMat_emissiveIntensity s' <= 1.10 /\
  0.12 <= AwgModel.uvMat_emissiveIntensity s' <= 1.50 /\
  (forall tc', tempCondensation <= tc' ->
     AwgModel.coilMat_emissiveIntensity s'
     <= AwgModel.coilMat_emissiveIntensity
          (AwgModel.useFrame step fluidFlow tc' delta s)) /\
  (forall ff', fluidFlow <= ff' ->
     AwgModel.uvMat_emissiveIntensity s'
     <= AwgModel.uvMat_emissiveIntensity
          (AwgModel.useFrame step ff' tempCondensation delta s)).
Proof.
  intros Hc Hu. simpl. rewrite Hc, Hu.
  pose proof (clamp01_range fluidFlow) as Hf.
  pose proof (clamp01_range tempCondensation) as Ht.
  unfold AwgModel.coil_glow, AwgModel.uv_glow.
  repeat split.
  - destruct (step =? "condensation")%string; lra.
  - destruct (step =? "condensation")%string; lra.
  - destruct (step =? "uv_tank")%string; lra.
  - destruct (step =? "uv_tank")%string; lra.
  - intros tc' Hle. pose proof (clamp01_mono _ _ Hle).
    destruct (step =? "condensation")%string; lra.
  - intros ff' Hle. pose proof (clamp01_mono _ _ Hle).
    destruct (step =? "uv_tank")%string; lra.
Qed.

Lemma glows_are_bounded_witness :
  0.08 <= AwgModel.coilMat_emissiveIntensity
            (AwgModel.useFrame "condensation" 7 (-3) 0.016 AwgModel.mounted)
       <= 1.10.
Proof.
  apply (glows_are_bounded "condensation" 7 (-3) 0.016 AwgModel.mounted);
    reflexivity.
Defined.

(** X9. The fan never stops and never turns back: whatever the stage and
    the value of the flow slider, a frame with a positive delta and the fan
    mounted advances its angle by at least [0.24 * delta] and at most
    [11.2 * delta]. *)
Theorem fan_always_turns_forward
    (step : string) (fluidFlow tempCondensation delta rz : R)
    (s : AwgModel.scene) :
  0 < delta -> AwgModel.fanRef s = Some rz ->
  exists rz',
    AwgModel.fanRef
      (AwgModel.useFrame step fluidFlow tempCondensation delta s) = Some rz' /\
    rz + 0.24 * delta <= rz' <= rz + 11.2 * delta.
Proof.
  intros Hd Hs. simpl. rewrite Hs. eexists. split; [reflexivity|].
  pose proof (clamp01_range fluidFlow) as Hf.
  unfold AwgModel.fan_base, AwgModel.fan_mult.
  destruct (step =? "air")%string; nra.
Qed.

Lemma fan_always_turns_forward_witness :
  exists rz',
    AwgModel.fanRef
      (AwgModel.useFrame "mineral" (-5) 0.58 0.016 AwgModel.mounted)
      = Some rz' /\
    0 + 0.24 * 0.016 <= rz' <= 0 + 11.2 * 0.016.
Proof.
  apply (fan_always_turns_forward "mineral" (-5) 0.58 0.016 0
           AwgModel.mounted); [lra|reflexivity].
Defined.

End ModelRunFacts.

(** ** The particle fields of the model *)

Section FieldFacts.

Import Num Particles.
Open Scope R_scope.

(** X10. The model shows exactly one particle field per stage: when the
    stage key is the one of a valid stage index [i], the field at position
    [k] is active if and only if [k = i], which is if and only if it is the
    field of that stage; and there is a field at position [i]. *)
Theorem one_active_field_per_stage
    (i : Z) (step : string) (fluidFlow tempCondensation : R) :
  Stage.step_key i = Some step ->
  (exists p, AwgModel.fields step fluidFlow tempCondensation !! Z.to_nat i
             = Some (step, p) /\ active p = true) /\
  (forall k own p,
     AwgModel.fields step fluidFlow tempCondensation !! k = Some (own, p) ->
     (active p = true <-> Z.of_nat k = i) /\
     (active p = true <-> own = step)).
Proof.
  unfold Stage.step_key. intros Hk.
  destruct (Z.ltb_spec i 0) as [Hn|Hp]; [discriminate|].
  remember (Z.to_nat i) as n eqn:En.
  assert (Hi : i = Z.of_nat n) by lia. clear En Hp. subst i.
  do 6 (destruct n as [|n];
    [ simpl in Hk; injection Hk as <-;
      split;
      [ eexists; split; reflexivity
      | intros k own p Hf;
        do 6 (destruct k as [|k];
          [ simpl in Hf; injection Hf as <- <-; simpl;
            split; split; intros; (lia || discriminate || reflexivity) | ]);
        discriminate ]
    | ]).
  discriminate.
Qed.

Lemma one_active_field_per_stage_witness :
  exists p, AwgModel.fields "uv_tank" 0.62 0.58 !! Z.to_nat 3
            = Some ("uv_tank"%string, p) /\ active p = true.
Proof.
  apply (one_active_field_per_stage 3 "uv_tank" 0.62 0.58). reflexivity.
Defined.

(** X11. No slider value stalls or reverses a field: for every stage key and
    every value of the two sliders, each of the six fields is rendered with
    a speed between 0.08 and 1.15. *)
Theorem field_speeds_are_positive
    (step : string) (fluidFlow tempCondensation : R)
    (k : nat) (own : string) (p : props) :
  AwgModel.fields step fluidFlow tempCondensation !! k = Some (own, p) ->
  0.08 <= speed p <= 1.15.
Proof.
  intros Hf.
  pose proof (clamp01_range fluidFlow) as Hff.
  pose proof (clamp01_range tempCondensation) as Htc.
  do 6 (destruct k as [|k];
    [ simpl in Hf; injection Hf as <- <-; simpl;
      unfold AwgModel.airSpeed, AwgModel.condSpeed, AwgModel.waterSpeed;
      lra | ]).
  discriminate.
Qed.

Lemma field_speeds_are_positive_witness :
  0.08 <= 0.08 + AwgModel.waterSpeed (-2) * 0.18 <= 1.15.
Proof.
  apply (field_speeds_are_positive "air" (-2) 9 5 "mineral"
           {| count := 900;
              speed := 0.08 + AwgModel.waterSpeed (-2) * 0.18;
              active := false;
              box := AwgModel.arr 0.9 0.25 0.25;
              direction := AwgModel.arr 1 0 0;
              swirl := 0.20 |}).
  reflexivity.
Defined.

(** *** The direction of flow *)






End FieldFacts.

(** ** The arrays of a particle field *)

Section ArrayFacts.

Import Num Particles.
Open Scope R_scope.

Lemma advect_zero p i pos : advect p 0 i pos = pos.
Proof. unfold advect. rewrite !add_at_zero by ring. reflexivity. Qed.

Lemma body_still p phs t i pos :
  ~ swirl p > 0 -> in_box p pos i -> body p phs t 0 i pos = pos.
Proof.
  intros Hs (px & py & pz & Hx & Hy & Hz & Hrx & Hry & Hrz).
  unfold body. rewrite advect_zero. unfold swirl_step.
  destruct (Rgt_dec (swirl p) 0) as [Hgt|_]; [contradiction|].
  unfold wrap_box.
  rewrite (wrap_axis_id pos (i * 3 + 0))
    by (rewrite (get_lookup _ _ _ Hx); exact Hrx).
  rewrite (wrap_axis_id pos (i * 3 + 1))
    by (rewrite (get_lookup _ _ _ Hy); exact Hry).
  apply wrap_axis_id. rewrite (get_lookup _ _ _ Hz). exact Hrz.
Qed.

(** X16. Without swirl, no time means no motion: in an active, mounted
    field with [swirl <= 0] whose particles are all inside the box, a frame
    with delta 0 leaves the array of positions exactly as it was, whatever
    the elapsed time and the phases.  (With [swirl > 0] this fails, as C10
    shows.) *)
Theorem still_frame_without_swirl
    (p : props) (phs : list R) (t : R) (o : points_obj) :
  active p = true -> swirl p <= 0 ->
  (forall i, (i < count p)%nat -> in_box p (position_array o) i) ->
  useFrame p phs t 0 (Some o)
  = Some {| position_array := position_array o; needsUpdate := true |}.
Proof.
  intros Ha Hs Hin. unfold useFrame. rewrite Ha. simpl. do 2 f_equal.
  unfold loop.
  assert (Hgen : forall n, (n <= count p)%nat ->
            loop_upto p phs t 0 n (position_array o) = position_array o).
  { induction n as [|n IH]; intros Hn; [reflexivity|].
    rewrite loop_upto_S, IH by lia.
    apply body_still; [lra|apply Hin; lia]. }
  apply Hgen. lia.
Qed.

Lemma still_frame_without_swirl_witness :
  useFrame
    {| count := 1; speed := 0.35; active := true;
       box := {| a0 := 1.2; a1 := 0.6; a2 := 0.6 |};
       direction := {| a0 := 0; a1 := -1; a2 := 0 |};
       swirl := 0 |}
    [4] 7 0
    (Some {| position_array := [0.6; 0.29; 0]; needsUpdate := false |})
  = Some {| position_array := [0.6; 0.29; 0]; needsUpdate := true |}.
Proof.
  apply (still_frame_without_swirl
           {| count := 1; speed := 0.35; active := true;
              box := {| a0 := 1.2; a1 := 0.6; a2 := 0.6 |};
              direction := {| a0 := 0; a1 := -1; a2 := 0 |};
              swirl := 0 |}
           [4] 7
           {| position_array := [0.6; 0.29; 0]; needsUpdate := false |}).
  - reflexivity.
  - simpl. lra.
  - intros i Hi. simpl in Hi. assert (i = 0%nat) as -> by lia.
    exists 0.6, 0.29, 0. simpl. repeat split; lra.
Defined.

End ArrayFacts.

(** ** The levels of the HTML page *)

Section OsoleyFacts.
Import QArith Qminmax Lqa Osoley.
Open Scope Q_scope.

Lemma rate_eq (flow temp : Q) :
  rate flow temp == Qmax 0 (flow * (26 - temp) * (1 # 500)).
Proof.
  unfold rate. apply Q.max_compat; [reflexivity|].
  unfold Qdiv. change (/ 100) with (1 # 100). change (/ 5) with (1 # 5). ring.
Qed.

Lemma rate_nonneg flow temp : 0 <= rate flow temp.
Proof. unfold rate. apply Q.le_max_l. Qed.

Lemma div15 (r : Q) : r / 15 == r * (1 # 15).
Proof. reflexivity. Qed.
Lemma div20 (r : Q) : r / 20 == r * (1 # 20).
Proof. reflexivity. Qed.

(** X18. With both sliders inside their ranges the production rate lies in
    [0, 5] and is 0 exactly when the flow slider is at 0; the period of the
    fan animation lies between a seventh of a second and three seconds, so
    the fan always turns. *)
Theorem production_rate_is_bounded (flow temp : Q) :
  sliders_in_range flow temp ->
  0 <= rate flow temp <= 5 /\
  (rate flow temp == 0 <-> flow == 0) /\
  (1 # 7) <= fan_period flow <= 3.
Proof.
  intros [[Hf0 Hf1] [Ht0 Ht1]]. rewrite rate_eq.
  set (e := flow * (26 - temp) * (1 # 500)).
  assert (He0 : 0 <= e) by (unfold e; nra).
  assert (He5 : e <= 5) by (unfold e; nra).
  rewrite (Q.max_r 0 e He0).
  split; [split; assumption|]. split.
  - unfold e. split; intros H; nra.
  - unfold fan_period. unfold Qdiv. change (/ 35) with (1 # 35). lra.
Qed.

Lemma coreLogic_step flow temp s :
  within s ->
  within (coreLogic flow temp s) /\
  lvl1 s <= lvl1 (coreLogic flow temp s) /\
  lvl2 s <= lvl2 (coreLogic flow temp s) /\
  (lvl2 s == 0 \/ 20 < lvl1 s ->
   lvl2 (coreLogic flow temp s) == 0 \/ 20 < lvl1 (coreLogic flow temp s)).
Proof.
  intros [[H10 H11] [H20 H21]]. unfold coreLogic, within.
  set (r := rate flow temp).
  destruct (Qlt_le_dec 0 r) as [Hr|Hr]; [|simpl; repeat split; auto; lra].
  simpl.
  assert (Hr15 : 0 < r / 15) by (rewrite div15; lra).
  assert (Hr20 : 0 < r / 20) by (rewrite div20; lra).
  destruct (Q.min_spec 100 (lvl1 s + r / 15)) as [[Ha Hb]|[Ha Hb]];
  destruct (Q.min_spec 100 (lvl2 s + r / 20)) as [[Hc Hd]|[Hc Hd]];
  destruct (Qlt_le_dec 20 (Qmin 100 (lvl1 s + r / 15))) as [Hg|Hg];
  rewrite ?Hb, ?Hd in *; repeat split; try lra; intros [H|H]; try lra.
Qed.

Lemma coreLogic_run_cons c cs s : run (c :: cs) s = run cs (coreLogic c.1 c.2 s).
Proof. reflexivity. Qed.

Lemma run_invariant calls s :
  within s ->
  within (run calls s) /\
  lvl1 s <= lvl1 (run calls s) /\
  lvl2 s <= lvl2 (run calls s) /\
  (lvl2 s == 0 \/ 20 < lvl1 s ->
   lvl2 (run calls s) == 0 \/ 20 < lvl1 (run calls s)).
Proof.
  revert s. induction calls as [|c cs IH]; intros s Hs.
  - simpl. repeat split; try apply Hs; auto; lra.
  - rewrite coreLogic_run_cons.
    destruct (coreLogic_step c.1 c.2 s Hs) as (Hw & H1 & H2 & H3).
    destruct (IH _ Hw) as (Hw' & H1' & H2' & H3').
    repeat split; try apply Hw'; try lra; auto.
Qed.

(** X19. The tank levels only rise and never pass 100: from levels within
    [0, 100], after any number of calls of [coreLogic], with any slider
    values, both levels are still within [0, 100] and neither is lower than
    before. *)
Theorem tank_levels_are_monotone_and_capped (calls : list (Q * Q)) (s : tanks) :
  within s ->
  within (run calls s) /\
  lvl1 s <= lvl1 (run calls s) /\
  lvl2 s <= lvl2 (run calls s).
Proof.
  intros Hs. destruct (run_invariant calls s Hs) as (Hw & H1 & H2 & _). auto.
Qed.

(** X20. The second tank waits for the first: starting from empty tanks,
    after any number of calls with any slider values, the second tank holds
    something only if the first is above 20. *)
Theorem second_tank_waits_for_first (calls : list (Q * Q)) :
  0 < lvl2 (run calls empty) -> 20 < lvl1 (run calls empty).
Proof.
  intros Hpos.
  assert (Hw : within empty) by (unfold within, empty; simpl; lra).
  destruct (run_invariant calls empty Hw) as (_ & _ & _ & H).
  destruct H as [H|H]; [left; reflexivity| |exact H]. lra.
Qed.

(** X21. [reset()] does not leave the first tank empty: it zeroes both
    levels and then runs one cycle, so with the sliders inside their ranges
    the first level ends at [rate / 15] (at most a third of a percent), which
    is 0 only when the flow slider is at 0; the second level ends at 0.  The
    levels before the reset play no role. *)
Theorem reset_runs_one_cycle (flow temp : Q) (s : tanks) :
  sliders_in_range flow temp ->
  lvl1 (reset flow temp s) == rate flow temp / 15 /\
  lvl1 (reset flow temp s) <= 1 # 3 /\
  lvl2 (reset flow temp s) == 0 /\
  (lvl1 (reset flow temp s) == 0 <-> flow == 0).
Proof.
  intros Hr. destruct (production_rate_is_bounded flow temp Hr)
    as ([Hr0 Hr5] & Hz & _).
  unfold reset, coreLogic. set (r := rate flow temp) in *.
  assert (Hm : Qmin 100 (0 + r / 15) == r / 15).
  { rewrite Q.min_r; [ring|]. rewrite div15. lra. }
  destruct (Qlt_le_dec 0 r) as [Hp|Hp]; simpl.
  - destruct (Qlt_le_dec 20 (Qmin 100 (0 + r / 15))) as [Hg|Hg].
    + rewrite Hm, div15 in Hg. lra.
    + rewrite Hm. repeat split; try reflexivity.
      * rewrite div15. lra.
      * intros H. apply Hz. rewrite div15 in H. lra.
      * intros H. apply Hz in H. rewrite div15. lra.
  - assert (H0 : r == 0) by lra. repeat split; try reflexivity.
    + rewrite div15. lra.
    + lra.
    + intros _. apply Hz, H0.
Qed.

(** X22. With the sliders held still the first tank fills linearly up to
    the cap: after [n] calls its level is
    [min (100, level + n * rate / 15)]. *)
Theorem first_tank_fills_linearly (flow temp : Q) (n : nat) (s : tanks) :
  within s ->
  lvl1 (run (replicate n (flow, temp)) s)
  == Qmin 100 (lvl1 s + inject_Z (Z.of_nat n) * (rate flow temp / 15)).
Proof.
  revert s. induction n as [|n IH]; intros s Hs.
  - change (lvl1 s == Qmin 100 (lvl1 s + 0 * (rate flow temp / 15))).
    destruct Hs as [[H0 H1] _]. rewrite Q.min_r; [ring|]. lra.
  - simpl replicate. rewrite coreLogic_run_cons. simpl fst. simpl snd.
    destruct (coreLogic_step flow temp s Hs) as (Hw & _).
    rewrite (IH _ Hw). clear IH.
    pose proof (rate_nonneg flow temp) as Hr.
    rewrite Nat2Z.inj_succ. unfold Z.succ. rewrite inject_Z_plus.
    change (inject_Z 1) with 1.
    assert (Hn : 0 <= inject_Z (Z.of_nat n)).
    { change 0 with (inject_Z 0). rewrite <- Zle_Qle. lia. }
    set (k := inject_Z (Z.of_nat n)) in *.
    unfold coreLogic. set (r := rate flow temp) in *.
    assert (Hd : 0 <= r / 15) by (rewrite div15; lra).
    set (d := r / 15) in *.
    assert (Hkd : 0 <= k * d) by nra.
    destruct Hs as [[H0 H1] _].
    destruct (Qlt_le_dec 0 r) as [Hp|Hp]; simpl.
    + destruct (Q.min_spec 100 (lvl1 s + d)) as [[Ha Hb]|[Ha Hb]];
        rewrite Hb.
      * assert (He : (k + 1) * d == k * d + d) by ring.
        rewrite !Q.min_l; [reflexivity| |]; lra.
      * apply Q.min_compat; [reflexivity|]. ring.
    + assert (Hd0 : d == 0).
      { unfold d. rewrite div15. lra. }
      apply Q.min_compat; [reflexivity|]. rewrite Hd0. ring.
Qed.

Lemma production_rate_is_bounded_witness :
  0 <= rate 50 12 <= 5 /\
  (rate 50 12 == 0 <-> 50 == 0) /\
  (1 # 7) <= fan_period 50 <= 3.
Proof.
  apply (production_rate_is_bounded 50 12). unfold sliders_in_range. lra.
Defined.

Lemma tank_levels_are_monotone_and_capped_witness :
  within (run [(50, 12); (100, 1); (0, 25)] empty) /\
  lvl1 empty <= lvl1 (run [(50, 12); (100, 1); (0, 25)] empty) /\
  lvl2 empty <= lvl2 (run [(50, 12); (100, 1); (0, 25)] empty).
Proof.
  apply (tank_levels_are_monotone_and_capped
           [(50, 12); (100, 1); (0, 25)] empty).
  unfold within, empty. simpl. lra.
Defined.

Lemma second_tank_waits_for_first_witness :
  20 < lvl1 (run (replicate 62 (100, 1)) empty).
Proof.
  apply (second_tank_waits_for_first (replicate 62 (100, 1))).
  vm_compute. reflexivity.
Defined.

Lemma reset_runs_one_cycle_witness :
  lvl1 (reset 50 12 {| lvl1 := 80; lvl2 := 40 |}) == rate 50 12 / 15.
Proof.
  apply (reset_runs_one_cycle 50 12 {| lvl1 := 80; lvl2 := 40 |}).
  unfold sliders_in_range. lra.
Defined.

Lemma first_tank_fills_linearly_witness :
  lvl1 (run (replicate 3 (50, 12)) empty)
  == Qmin 100 (lvl1 empty + inject_Z (Z.of_nat 3) * (rate 50 12 / 15)).
Proof.
  apply (first_tank_fills_linearly 50 12 3 empty).
  unfold within, empty. simpl. lra.
Defined.

End OsoleyFacts.

(** ** The component [Tanks] *)

Section TanksFacts.

Import Num.
Open Scope string_scope.
Open Scope R_scope.

Lemma targetDirty_band (step : string) : 0.22 <= Tanks.targetDirty step <= 0.30.
Proof. unfold Tanks.targetDirty. destruct (_ || _); lra. Qed.

Lemma targetClean_band (step : string) : 0.28 <= Tanks.targetClean step <= 0.42.
Proof. unfold Tanks.targetClean. destruct (_ || _ || _); lra. Qed.

(** X17. In [Tanks] the two water levels move together or not at all: if
    either mesh is missing, a frame changes nothing.  With both mounted as
    first rendered, after any sequence of frames with non-negative deltas
    (the stage may change from frame to frame) both are still mounted, the
    dirty level lies in [0.22, 0.30] and the clean level in [0.28, 0.42]. *)
Theorem tanks_move_together (ins : list (string * R)) :
  Forall (fun sd => 0 <= sd.2) ins ->
  (forall step delta m,
     Tanks.dirtyRef m = None \/ Tanks.cleanRef m = None ->
     Tanks.useFrame step delta m = m) /\
  exists d c : R,
    Tanks.frames ins Tanks.mounted
      = {| Tanks.dirtyRef := Some d; Tanks.cleanRef := Some c |} /\
    0.22 <= d <= 0.30 /\ 0.28 <= c <= 0.42.
Proof.
  intros Hall. split.
  { intros step delta [[d|] [c|]] [H|H]; simpl in H; try discriminate;
      reflexivity. }
  assert (Hgen : forall d c,
            0.22 <= d <= 0.30 -> 0.28 <= c <= 0.42 ->
            exists d' c',
              Tanks.frames ins
                {| Tanks.dirtyRef := Some d; Tanks.cleanRef := Some c |}
              = {| Tanks.dirtyRef := Some d'; Tanks.cleanRef := Some c' |} /\
              0.22 <= d' <= 0.30 /\ 0.28 <= c' <= 0.42).
  { induction Hall as [|sd ins Hsd _ IH]; intros d c Hd Hc.
    - exists d, c. auto.
    - unfold Tanks.frames. simpl.
      apply IH; apply approach_in_interval;
        auto using targetDirty_band, targetClean_band. }
  apply Hgen; lra.
Qed.

Lemma tanks_move_together_witness :
  exists d c : R,
    Tanks.frames [("filtration", 0.016); ("dispense", 0)] Tanks.mounted
      = {| Tanks.dirtyRef := Some d; Tanks.cleanRef := Some c |} /\
    0.22 <= d <= 0.30 /\ 0.28 <= c <= 0.42.
Proof.
  apply (tanks_move_together [("filtration", 0.016); ("dispense", 0)]).
  repeat constructor; simpl; lra.
Defined.

End TanksFacts.

(** * The particle field as the engine runs it *)

Section Float32Facts.

Import PrimFloat Js Field FieldStep.
Open Scope string_scope.
Open Scope float_scope.

(** *** Cells *)

Lemma get_Some (pos : list float) i v : pos !! i = Some v -> get pos i = v.
Proof. intros H. unfold get. by rewrite H. Qed.

Lemma put_other pos i v j : i <> j -> put pos i v !! j = pos !! j.
Proof. intros H. by apply list_lookup_insert_ne. Qed.

Lemma put_same pos i v w :
  pos !! i = Some w -> put pos i v !! i = Some (fround v).
Proof.
  intros H. apply list_lookup_insert_eq. by apply lookup_lt_Some in H.
Qed.

Lemma f_add_at_other pos i d j : i <> j -> add_at pos i d !! j = pos !! j.
Proof. apply put_other. Qed.

Lemma f_add_at_same pos i d v :
  pos !! i = Some v -> add_at pos i d !! i = Some (fround (v + d)).
Proof.
  intros H. unfold add_at. rewrite (get_Some _ _ _ H). by eapply put_same.
Qed.

Lemma f_wrap_axis_other pos i h j :
  i <> j -> wrap_axis pos i h !! j = pos !! j.
Proof.
  intros H. unfold wrap_axis, wrap_lo, wrap_hi.
  destruct (h <? get pos i);
    destruct (get _ i <? - h); rewrite ?put_other by done; done.
Qed.

Lemma f_wrap_axis_same pos i h v :
  pos !! i = Some v -> wrap_axis pos i h !! i = Some (wrap_value v h).
Proof.
  intros H. unfold wrap_axis, wrap_hi, wrap_lo, wrap_value.
  rewrite (get_Some _ _ _ H).
  destruct (h <? v).
  - rewrite (get_Some (put pos i (- h)) i (fround (- h)))
      by (by eapply put_same).
    destruct (fround (- h) <? - h).
    + eapply put_same. by eapply put_same.
    + by eapply put_same.
  - rewrite (get_Some _ _ _ H).
    destruct (v <? - h); [by eapply put_same|done].
Qed.

Lemma f_particle_Some pos i c :
  particle pos i = Some c ->
  pos !! (i * 3 + 0)%nat = Some c.1.1 /\
  pos !! (i * 3 + 1)%nat = Some c.1.2 /\
  pos !! (i * 3 + 2)%nat = Some c.2.
Proof.
  unfold particle.
  destruct (pos !! (i * 3 + 0)%nat), (pos !! (i * 3 + 1)%nat),
    (pos !! (i * 3 + 2)%nat); try discriminate.
  intros [= <-]. auto.
Qed.

Lemma f_particle_same pos pos' i :
  (forall j, (i * 3 <= j <= i * 3 + 2)%nat -> pos' !! j = pos !! j) ->
  particle pos' i = particle pos i.
Proof. intros Hs. unfold particle. by rewrite !Hs by lia. Qed.

Lemma f_body_other M p phs t delta i pos j :
  (j < i * 3 \/ i * 3 + 2 < j)%nat ->
  body M p phs t delta i pos !! j = pos !! j.
Proof.
  intros Hj. unfold body, wrap_box, swirl_step, advect.
  rewrite !f_wrap_axis_other by lia.
  destruct (0 <? swirl p); rewrite !f_add_at_other by lia; done.
Qed.

Lemma f_body_particle M p phs t delta i pos c :
  particle pos i = Some c ->
  particle (body M p phs t delta i pos) i
  = Some (step M p (get phs i) t delta c).
Proof.
  intros Hc. destruct (f_particle_Some _ _ _ Hc) as (Hx & Hy & Hz).
  destruct c as [[cx cy] cz]. simpl in Hx, Hy, Hz.
  set (a := advect p delta i pos).
  assert (Hax : a !! (i * 3 + 0)%nat
                = Some (fround (cx + x (dir p) * speed p * delta))).
  { unfold a, advect. rewrite !f_add_at_other by lia.
    by apply f_add_at_same. }
  assert (Hay : a !! (i * 3 + 1)%nat
                = Some (fround (cy + y (dir p) * speed p * delta))).
  { unfold a, advect. rewrite f_add_at_other by lia.
    apply f_add_at_same. by rewrite f_add_at_other by lia. }
  assert (Haz : a !! (i * 3 + 2)%nat
                = Some (fround (cz + z (dir p) * speed p * delta))).
  { unfold a, advect. apply f_add_at_same.
    by rewrite !f_add_at_other by lia. }
  unfold body. fold a. unfold step, swirl_step.
  destruct (0 <? swirl p).
  - set (ph := get phs i + t * (0.8 + swirl p * 1.2)).
    set (s1 := add_at a (i * 3 + 1) (Math_sin M ph * swirl p * 0.02)).
    set (s2 := add_at s1 (i * 3 + 2) (Math_cos M ph * swirl p * 0.02)).
    assert (H0 : s2 !! (i * 3 + 0)%nat
                 = Some (fround (cx + x (dir p) * speed p * delta))).
    { unfold s2, s1. by rewrite !f_add_at_other by lia. }
    assert (H1 : s2 !! (i * 3 + 1)%nat
                 = Some (fround (fround (cy + y (dir p) * speed p * delta)
                                 + Math_sin M ph * swirl p * 0.02))).
    { unfold s2, s1. rewrite f_add_at_other by lia.
      by apply f_add_at_same. }
    assert (H2 : s2 !! (i * 3 + 2)%nat
                 = Some (fround (fround (cz + z (dir p) * speed p * delta)
                                 + Math_cos M ph * swirl p * 0.02))).
    { unfold s2. apply f_add_at_same. unfold s1.
      by rewrite f_add_at_other by lia. }
    unfold wrap_box, particle.
    rewrite (f_wrap_axis_other _ (i * 3 + 2) _ (i * 3 + 0)) by lia.
    rewrite (f_wrap_axis_other _ (i * 3 + 1) _ (i * 3 + 0)) by lia.
    rewrite (f_wrap_axis_same _ _ _ _ H0).
    rewrite (f_wrap_axis_other _ (i * 3 + 2) _ (i * 3 + 1)) by lia.
    erewrite (f_wrap_axis_same _ (i * 3 + 1))
      by (rewrite f_wrap_axis_other by lia; exact H1).
    erewrite (f_wrap_axis_same _ (i * 3 + 2))
      by (rewrite !f_wrap_axis_other by lia; exact H2).
    reflexivity.
  - unfold wrap_box, particle.
    rewrite (f_wrap_axis_other _ (i * 3 + 2) _ (i * 3 + 0)) by lia.
    rewrite (f_wrap_axis_other _ (i * 3 + 1) _ (i * 3 + 0)) by lia.
    rewrite (f_wrap_axis_same _ _ _ _ Hax).
    rewrite (f_wrap_axis_other _ (i * 3 + 2) _ (i * 3 + 1)) by lia.
    erewrite (f_wrap_axis_same _ (i * 3 + 1))
      by (rewrite f_wrap_axis_other by lia; exact Hay).
    erewrite (f_wrap_axis_same _ (i * 3 + 2))
      by (rewrite !f_wrap_axis_other by lia; exact Haz).
    reflexivity.
Qed.

Lemma f_loop_upto_S M p phs t delta n pos :
  loop_upto M p phs t delta (S n) pos =
  body M p phs t delta n (loop_upto M p phs t delta n pos).
Proof. unfold loop_upto. rewrite seq_S, foldl_app. reflexivity. Qed.

Lemma f_loop_upto_untouched M p phs t delta n pos j :
  (n * 3 <= j)%nat -> loop_upto M p phs t delta n pos !! j = pos !! j.
Proof.
  induction n as [|n IH]; intros Hj; [done|].
  rewrite f_loop_upto_S, f_body_other by lia. apply IH. lia.
Qed.

Lemma f_loop_upto_particle M p phs t delta n pos i c :
  (i < n)%nat -> particle pos i = Some c ->
  particle (loop_upto M p phs t delta n pos) i
  = Some (step M p (get phs i) t delta c).
Proof.
  intros Hi Hc. induction n as [|n IH]; [lia|].
  rewrite f_loop_upto_S. destruct (decide (i = n)) as [->|Hne].
  - apply f_body_particle. rewrite <- Hc. apply f_particle_same.
    intros j Hj. apply f_loop_upto_untouched. lia.
  - rewrite <- IH by lia. apply f_particle_same.
    intros j Hj. apply f_body_other. lia.
Qed.

(** X14. A frame moves every particle on its own.  In an active field the
    three cells of particle [i] after the frame are a function of its three
    cells before the frame, its phase, the elapsed time and the delta only:
    each coordinate is advected and stored as a Float32, the second and
    third are then displaced by the swirl and stored again, and each goes
    through the two tests of its axis; no iteration of the loop reads or
    writes the cells of another particle. *)
Theorem frame_moves_each_particle_alone
    (M : Math) (t delta : float) (s : instance) (i : nat)
    (c : float * float * float) :
  active (shown s) = true -> (i < count (shown s))%nat ->
  particle (position_array s) i = Some c ->
  particle (position_array (useFrame M t delta s)) i
  = Some (step M (shown s) (get (phase_array s) i) t delta c).
Proof.
  intros Ha Hi Hc. unfold useFrame. rewrite Ha. simpl.
  apply f_loop_upto_particle; assumption.
Qed.

Lemma frame_moves_each_particle_alone_witness :
  particle
    (position_array
       (useFrame (Probe.engine (fun v => v) (fun v => v)) 2 0.016
          {| shown :=
               {| count := 2; speed := 0.35; active := true; box_id := 0;
                  box := {| a0 := 1.2; a1 := 0.6; a2 := 0.6 |};
                  direction := {| a0 := 1; a1 := 0; a2 := 0 |};
                  swirl := 0 |};
             position_array := [0.5; 0.25; 0; -0.5; 0.25; -0.25];
             phase_array := [0; 1];
             needsUpdate := false;
             draws := 8 |})) 1
  = Some (step (Probe.engine (fun v => v) (fun v => v))
            {| count := 2; speed := 0.35; active := true; box_id := 0;
               box := {| a0 := 1.2; a1 := 0.6; a2 := 0.6 |};
               direction := {| a0 := 1; a1 := 0; a2 := 0 |};
               swirl := 0 |}
            (get [0; 1] 1) 2 0.016 (-0.5, 0.25, -0.25)).
Proof.
  apply (frame_moves_each_particle_alone
           (Probe.engine (fun v => v) (fun v => v)) 2 0.016
           {| shown :=
                {| count := 2; speed := 0.35; active := true; box_id := 0;
                   box := {| a0 := 1.2; a1 := 0.6; a2 := 0.6 |};
                   direction := {| a0 := 1; a1 := 0; a2 := 0 |};
                   swirl := 0 |};
              position_array := [0.5; 0.25; 0; -0.5; 0.25; -0.25];
              phase_array := [0; 1];
              needsUpdate := false;
              draws := 8 |} 1 (-0.5, 0.25, -0.25)).
  - reflexivity.
  - simpl. lia.
  - reflexivity.
Defined.

(** *** The two tests of an axis *)

(** After the two tests a cell either holds what it held, and then it is
    neither above [h] nor below [-h] as the code compares them, or it holds
    the Float32 nearest to [h] or to [-h]. *)
Lemma wrap_value_cases (v h : float) :
  (wrap_value v h = v /\ (h <? v) = false /\ (v <? - h) = false) \/
  wrap_value v h = fround h \/
  wrap_value v h = fround (- h).
Proof.
  unfold wrap_value. destruct (h <? v) eqn:E1.
  - destruct (fround (- h) <? - h); auto.
  - destruct (v <? - h) eqn:E2; auto.
Qed.

(** X15. What the two tests do guarantee.  After a frame of an active
    field each coordinate of each particle either passes both comparisons of
    the code (it is not above the half extent of its axis and not below its
    negative), or is the Float32 nearest to the half extent or to its
    negative: a coordinate leaves the box by no more than the rounding of the
    half extent. *)
Theorem coordinates_end_within_rounded_box
    (M : Math) (t delta : float) (s : instance) (i : nat)
    (c : float * float * float) :
  active (shown s) = true -> (i < count (shown s))%nat ->
  particle (position_array s) i = Some c ->
  let ok (v h : float) :=
    ((h <? v) = false /\ (v <? - h) = false) \/
    v = fround h \/ v = fround (- h) in
  exists c',
    particle (position_array (useFrame M t delta s)) i = Some c' /\
    ok c'.1.1 (a0 (box (shown s)) / 2) /\
    ok c'.1.2 (a1 (box (shown s)) / 2) /\
    ok c'.2 (a2 (box (shown s)) / 2).
Proof.
  intros Ha Hi Hc ok. unfold useFrame. rewrite Ha. simpl.
  eexists. split; [apply f_loop_upto_particle; eassumption|].
  destruct c as [[cx cy] cz]. unfold step.
  destruct (0 <? swirl (shown s)); simpl; unfold ok;
    repeat split;
    match goal with
    | |- context [wrap_value ?v ?h] =>
        destruct (wrap_value_cases v h) as [(-> & H1 & H2) | [-> | ->]]; auto
    end.
Qed.

Lemma coordinates_end_within_rounded_box_witness :
  exists c',
    particle
      (position_array
         (useFrame (Probe.engine (fun v => v) (fun v => v)) 2 0.016
            {| shown :=
                 {| count := 1; speed := 0.35; active := true; box_id := 0;
                    box := {| a0 := 1.2; a1 := 0.6; a2 := 0.6 |};
                    direction := {| a0 := 1; a1 := 0; a2 := 0 |};
                    swirl := 0 |};
               position_array := [0.5; 0.25; 0];
               phase_array := [0];
               needsUpdate := false;
               draws := 4 |})) 0 = Some c' /\
    (((1.2 / 2 <? c'.1.1) = false /\ (c'.1.1 <? - (1.2 / 2)) = false) \/
     c'.1.1 = fround (1.2 / 2) \/ c'.1.1 = fround (- (1.2 / 2))) /\
    (((0.6 / 2 <? c'.1.2) = false /\ (c'.1.2 <? - (0.6 / 2)) = false) \/
     c'.1.2 = fround (0.6 / 2) \/ c'.1.2 = fround (- (0.6 / 2))) /\
    (((0.6 / 2 <? c'.2) = false /\ (c'.2 <? - (0.6 / 2)) = false) \/
     c'.2 = fround (0.6 / 2) \/ c'.2 = fround (- (0.6 / 2))).
Proof.
  apply (coordinates_end_within_rounded_box
           (Probe.engine (fun v => v) (fun v => v)) 2 0.016
           {| shown :=
                {| count := 1; speed := 0.35; active := true; box_id := 0;
                   box := {| a0 := 1.2; a1 := 0.6; a2 := 0.6 |};
                   direction := {| a0 := 1; a1 := 0; a2 := 0 |};
                   swirl := 0 |};
              position_array := [0.5; 0.25; 0];
              phase_array := [0];
              needsUpdate := false;
              draws := 4 |} 0 (0.5, 0.25, 0)).
  - reflexivity.
  - simpl. lia.
  - reflexivity.
Defined.

(** C1. The claim fails on the code, by the narrowing of the store.  In the
    "dispense" field of the model (box [0.30, 0.55, 0.30], direction
    [0, -1, 0], no swirl, flow slider 0.62) a particle at height [-0.27],
    inside the box, is advected below [-halfY] by a frame of delta 0.016; the
    second test then stores [halfY] into the [Float32Array], which keeps
    0.27500000596046448, above [halfY] = 0.275: after the frame the second
    coordinate is outside [[-halfY, halfY]]. *)
Theorem wrap_leaves_particle_outside_box (M : Math) :
  match Probe.dispense 0 "dispense" with
  | Some p =>
      let s := {| shown := p;
                  position_array :=
                    [0; fround (-0.27); 0] ++ replicate 2697 0;
                  phase_array := replicate 900 0;
                  needsUpdate := false;
                  draws := 3600 |} in
      let half := a1 (box p) / 2 in
      let before := get (position_array s) 1 in
      let after := get (position_array (useFrame M 5 0.016 s)) 1 in
      active p = true /\
      (- half <=? before) = true /\ (before <=? half) = true /\
      half = 0.27500000000000002 /\
      after = 0.27500000596046448 /\
      (half <? after) = true
  | None => False
  end.
Proof. vm_compute. repeat split. Qed.

(** *** Frames and renders *)

Lemma useFrame_idle M t delta s :
  active (shown s) = false -> useFrame M t delta s = s.
Proof. intros H. unfold useFrame. by rewrite H. Qed.

(** A render whose [box] is another object than the one of the render before
    replaces the positions by newly drawn ones, whatever they were. *)
Lemma render_redraws M p s :
  box_id p <> box_id (shown s) ->
  position_array (render M p s) = positions M p (draws s).
Proof.
  intros H. unfold render. simpl.
  destruct (Nat.eqb_spec (box_id p) (box_id (shown s))) as [He|_];
    [contradiction|].
  by rewrite andb_false_r.
Qed.

(** The memo of the phases depends on [count] alone and survives the
    render. *)
Lemma render_keeps_phases M p s :
  count p = count (shown s) -> phase_array (render M p s) = phase_array s.
Proof. intros H. unfold render. simpl. by rewrite H, Nat.eqb_refl. Qed.

(** Every render of the model redraws the positions of each of its six
    fields, since each render makes its [box] arrays anew. *)
Lemma scene_render_redraws M k step ff tc (w : Scene.track) own p :
  Scene.fields (S (Scene.renders w)) step ff tc !! k = Some (own, p) ->
  (exists own0 step0 ff0 tc0,
     Scene.fields (Scene.renders w) step0 ff0 tc0 !! k
     = Some (own0, shown (Scene.inst w))) ->
  position_array (Scene.inst (Scene.happen M k (Scene.Render step ff tc) w))
  = positions M p (draws (Scene.inst w)).
Proof.
  intros Hp (own0 & step0 & ff0 & tc0 & H0). simpl. rewrite Hp. simpl.
  apply render_redraws.
  do 6 (destruct k as [|k];
    [ simpl in Hp, H0; injection Hp as <- <-; injection H0 as _ <-;
      simpl; lia | ]).
  discriminate.
Qed.

(** C5. The first half of the claim holds of the frame callback, the second
    half fails on the code.  The "dispense" field is mounted on its own
    stage and runs a frame; the stage changes to "mineral" and two frames are
    drawn, which leave the array exactly as it was; the stage changes back.
    The render that reactivates the field passes a new [box] array, so the
    memo of the positions is computed again: the array the field resumes
    from is drawn afresh from [Math.random()] and its second cell is
    -0.05717821791768074, not the frozen -0.11707920581102371.  The phases,
    whose memo depends on [count] alone, are the ones of the mount. *)
Theorem reactivation_redraws_positions (sin cos : float -> float) :
  let M := Probe.engine sin cos in
  match Scene.start M 4 "dispense" 0.62 0.58 with
  | Some w0 =>
      let w1 := Scene.play M 4
                  [Scene.Frame 1 0.016; Scene.Render "mineral" 0.62 0.58] w0 in
      let w2 := Scene.play M 4 [Scene.Frame 2 0.016; Scene.Frame 3 0.016] w1 in
      let w3 := Scene.play M 4 [Scene.Render "dispense" 0.62 0.58] w2 in
      active (shown (Scene.inst w0)) = true /\
      active (shown (Scene.inst w1)) = false /\
      position_array (Scene.inst w2) = position_array (Scene.inst w1) /\
      active (shown (Scene.inst w3)) = true /\
      position_array (Scene.inst w3)
        = positions M (shown (Scene.inst w3)) (draws (Scene.inst w2)) /\
      phase_array (Scene.inst w3) = phase_array (Scene.inst w0) /\
      get (position_array (Scene.inst w2)) 1 = -0.11707920581102371 /\
      get (position_array (Scene.inst w3)) 1 = -0.05717821791768074 /\
      (get (position_array (Scene.inst w2)) 1
         =? get (position_array (Scene.inst w3)) 1) = false
  | None => False
  end.
Proof. vm_compute. repeat split. Qed.

End Float32Facts.
